(** * Smart Bookmark App: the Bookmarks component

    A shallow embedding of [src/components/Bookmarks.tsx]: the URL
    normalisation helper, the component state with its setters, the three
    asynchronous operations ([fetchBookmarks], [addBookmark],
    [deleteBookmark]), the toast timer effect and the event loop that
    interleaves them. *)

From stdpp Require Import base option list numbers strings gmap.
From Stdlib Require Import Ascii Lia.

Local Open Scope N_scope.

(** ** JavaScript strings

    A JavaScript string is a sequence of UTF-16 code units. *)

Definition jsstring : Type := list N.

(** An ASCII literal of the source as a sequence of code units. *)
Definition lit (s : string) : jsstring :=
  List.map Ascii.N_of_ascii (String.list_ascii_of_string s).

(** The empty string. *)
Definition empty_string : jsstring := [].

(** [!v] on a string: only the empty string is falsy. *)
Definition falsy (v : jsstring) : bool :=
  match v with
  | [] => true
  | _ :: _ => false
  end.

(** WhiteSpace and LineTerminator code points, the ones
    [String.prototype.trim] strips. *)
Definition is_white_space (c : N) : bool :=
  (c =? 0x09) || (c =? 0x0A) || (c =? 0x0B) || (c =? 0x0C) || (c =? 0x0D)
  || (c =? 0x20) || (c =? 0xA0) || (c =? 0x1680)
  || ((0x2000 <=? c) && (c <=? 0x200A))
  || (c =? 0x2028) || (c =? 0x2029) || (c =? 0x202F) || (c =? 0x205F)
  || (c =? 0x3000) || (c =? 0xFEFF).

(** [String.prototype.trimStart]: the leading white space is dropped. *)
Fixpoint trimStart (s : jsstring) : jsstring :=
  match s with
  | [] => []
  | c :: s' => if is_white_space c then trimStart s' else s
  end.

(** [String.prototype.trimEnd]: the trailing white space is dropped. *)
Fixpoint trimEnd (s : jsstring) : jsstring :=
  match s with
  | [] => []
  | c :: s' =>
      match trimEnd s' with
      | [] => if is_white_space c then [] else [c]
      | r => c :: r
      end
  end.

(** [String.prototype.trim]: both ends. *)
Definition trim (s : jsstring) : jsstring := trimEnd (trimStart s).

(** [s.startsWith(p)], code unit by code unit. *)
Fixpoint starts_with (p s : jsstring) : bool :=
  match p, s with
  | [], _ => true
  | _ :: _, [] => false
  | a :: p', c :: s' => (c =? a) && starts_with p' s'
  end.

(** A lower-case ASCII letter of a pattern under the [i] flag (no [u]
    flag): it matches itself and its upper-case form, nothing else. *)
Definition ci (c : N) (a : Ascii.ascii) : bool :=
  (c =? Ascii.N_of_ascii a) || (c =? Ascii.N_of_ascii a - 32).

(** [/^https?:\/\//i.test(v)]. *)
Definition test_http_scheme (v : jsstring) : bool :=
  match v with
  | c1 :: c2 :: c3 :: c4 :: r =>
      ci c1 "h"%char && ci c2 "t"%char && ci c3 "t"%char && ci c4 "p"%char &&
      match r with
      | c5 :: r' =>
          (ci c5 "s"%char && starts_with (lit "://") r') || starts_with (lit "://") r
      | [] => false
      end
  | _ => false
  end.

(** [normalizeUrl] (Bookmarks.tsx, lines 15-20). *)
Definition normalizeUrl (raw : jsstring) : jsstring :=
  let v := trim raw in
  if falsy v then empty_string
  else if negb (test_http_scheme v) then lit "https://" ++ v
  else v.

(** A reading of the pattern without the [i] flag: the string, with its
    ASCII capitals lowered, starts with [http://] or [https://]. *)
Definition lower_ascii (c : N) : N :=
  if (0x41 <=? c) && (c <=? 0x5A) then c + 32 else c.

Definition has_http_scheme (v : jsstring) : bool :=
  starts_with (lit "http://") (List.map lower_ascii v)
  || starts_with (lit "https://") (List.map lower_ascii v).

(** The specification's "already absolute (has a scheme)": the string
    starts with a scheme in the sense of RFC 3986, a letter followed by
    letters, digits, [+], [-] or [.], and then a colon. *)
Definition is_alpha (c : N) : bool :=
  ((0x41 <=? c) && (c <=? 0x5A)) || ((0x61 <=? c) && (c <=? 0x7A)).

Definition is_scheme_char (c : N) : bool :=
  is_alpha c || ((0x30 <=? c) && (c <=? 0x39))
  || (c =? 0x2B) || (c =? 0x2D) || (c =? 0x2E).

Fixpoint scheme_rest (s : jsstring) : bool :=
  match s with
  | [] => false
  | c :: s' => if c =? 0x3A then true else is_scheme_char c && scheme_rest s'
  end.

Definition has_scheme (s : jsstring) : bool :=
  match s with
  | [] => false
  | c :: s' => is_alpha c && scheme_rest s'
  end.

Local Close Scope N_scope.

(** ** Data model *)

(** The [Bookmark] row type (lines 7-13). *)
Module Bookmark.
Record t : Type := mk {
  id : jsstring;
  user_id : jsstring;
  title : jsstring;
  url : jsstring;
  created_at : jsstring
}.
End Bookmark.

(** The error object of a Data Store reply; the component reads only
    its [message]. *)
Module PostgrestError.
Record t : Type := mk { message : jsstring }.
End PostgrestError.

(** What an awaited Data Store call resolves to: [{ data, error }]. *)
Record Result (T : Type) : Type := mkResult {
  data : option T;
  error : option PostgrestError.t
}.
Arguments mkResult {T} _ _.
Arguments data {T} _.
Arguments error {T} _.

(** The object passed to [insert] (line 196). *)
Record NewRow : Type := mkNewRow {
  row_user_id : jsstring;
  row_title : jsstring;
  row_url : jsstring
}.

Inductive MessageType : Type := ok | err.

(** The toast message, [{ type, text }] (lines 43-46). *)
Record Message : Type := mkMessage {
  type : MessageType;
  text : jsstring
}.

(** An exception value; the only one the component can meet is the
    [TypeError] of [new URL]. *)
Inductive Exn : Type := TypeError.

(** ** Component state

    The seven [useState] cells (lines 34-46), then what the closures and
    the host keep for the component: one cell per run of the initial-load
    effect for its [let mounted] variable, the clock in milliseconds, the
    host's timer queue (timer id, due time), and the timer id held by the
    clean-up function of the toast effect. *)
Record State : Type := mkState {
  title : jsstring;
  url : jsstring;
  items : list Bookmark.t;
  loading : bool;
  submitting : bool;
  deletingId : option jsstring;
  message : option Message;
  mounted : list bool;
  now : Z;
  timers : list (nat * Z);
  nextTimer : nat;
  toastTimer : option nat
}.

(** The state of a freshly mounted component at time [t0]. *)
Definition initialState (t0 : Z) : State :=
  mkState empty_string empty_string [] true false None None [] t0 [] 0 None.

Definition setTitle (v : jsstring) (s : State) : State :=
  mkState v (url s) (items s) (loading s) (submitting s) (deletingId s)
    (message s) (mounted s) (now s) (timers s) (nextTimer s) (toastTimer s).

Definition setUrl (v : jsstring) (s : State) : State :=
  mkState (title s) v (items s) (loading s) (submitting s) (deletingId s)
    (message s) (mounted s) (now s) (timers s) (nextTimer s) (toastTimer s).

(** [setItems] with an updater function; [setItems(v)] is
    [setItems (fun _ => v)]. *)
Definition setItems (f : list Bookmark.t -> list Bookmark.t) (s : State) : State :=
  mkState (title s) (url s) (f (items s)) (loading s) (submitting s)
    (deletingId s) (message s) (mounted s) (now s) (timers s) (nextTimer s)
    (toastTimer s).

Definition setLoading (v : bool) (s : State) : State :=
  mkState (title s) (url s) (items s) v (submitting s) (deletingId s)
    (message s) (mounted s) (now s) (timers s) (nextTimer s) (toastTimer s).

Definition setSubmitting (v : bool) (s : State) : State :=
  mkState (title s) (url s) (items s) (loading s) v (deletingId s)
    (message s) (mounted s) (now s) (timers s) (nextTimer s) (toastTimer s).

Definition setDeletingId (v : option jsstring) (s : State) : State :=
  mkState (title s) (url s) (items s) (loading s) (submitting s) v
    (message s) (mounted s) (now s) (timers s) (nextTimer s) (toastTimer s).

(** *** Timers of the host *)

(** [setTimeout(cb, delay)]: the timer is queued and its id returned. *)
Definition setTimeout (delay : Z) (s : State) : nat * State :=
  (nextTimer s,
   mkState (title s) (url s) (items s) (loading s) (submitting s)
     (deletingId s) (message s) (mounted s) (now s)
     (timers s ++ [(nextTimer s, (now s + delay)%Z)]) (S (nextTimer s))
     (toastTimer s)).

(** [clearTimeout(t)]. *)
Definition clearTimeout (t : nat) (s : State) : State :=
  mkState (title s) (url s) (items s) (loading s) (submitting s)
    (deletingId s) (message s) (mounted s) (now s)
    (List.filter (fun p => negb (fst p =? t)) (timers s)) (nextTimer s)
    (toastTimer s).

Definition set_toastTimer (v : option nat) (s : State) : State :=
  mkState (title s) (url s) (items s) (loading s) (submitting s)
    (deletingId s) (message s) (mounted s) (now s) (timers s) (nextTimer s) v.

Definition write_message (v : option Message) (s : State) : State :=
  mkState (title s) (url s) (items s) (loading s) (submitting s)
    (deletingId s) v (mounted s) (now s) (timers s) (nextTimer s)
    (toastTimer s).

(** *** The toast effect (lines 165-169)

    [useEffect(..., [message])]: after a render in which [message] is a
    different value, React runs the clean-up of the previous run and then
    the effect body again. *)

(** The clean-up [() => clearTimeout(t)] of the previous run, if that
    run registered one. *)
Definition toastCleanup (s : State) : State :=
  match toastTimer s with
  | Some t => clearTimeout t (set_toastTimer None s)
  | None => s
  end.

(** The effect body: nothing for [null], else a timer of 2500 ms whose
    callback is [() => setMessage(null)]. *)
Definition toastEffect (s : State) : State :=
  match message s with
  | None => s
  | Some _ =>
      let '(t, s') := setTimeout 2500 s in
      set_toastTimer (Some t) s'
  end.

(** [setMessage(v)]. Every [{ type, text }] literal is a fresh object,
    so the state changes unless [null] replaces [null]; on a change the
    toast effect is run again. *)
Definition setMessage (v : option Message) (s : State) : State :=
  match message s, v with
  | None, None => s
  | _, _ => toastEffect (write_message v (toastCleanup s))
  end.

(** *** The [mounted] variable of the initial-load effect *)

(** [let mounted = true] of a new run of the effect; the run is named by
    the index of its cell. *)
Definition allocMounted (s : State) : nat * State :=
  (length (mounted s),
   mkState (title s) (url s) (items s) (loading s) (submitting s)
     (deletingId s) (message s) (mounted s ++ [true]) (now s) (timers s)
     (nextTimer s) (toastTimer s)).

(** [mounted = false] in the clean-up of run [cell]. *)
Definition clearMounted (cell : nat) (s : State) : State :=
  mkState (title s) (url s) (items s) (loading s) (submitting s)
    (deletingId s) (message s) (<[cell := false]> (mounted s)) (now s)
    (timers s) (nextTimer s) (toastTimer s).

(** Reading [mounted] from the closure of run [cell]. *)
Definition readMounted (cell : nat) (s : State) : bool :=
  default false (mounted s !! cell).

(** ** Asynchronous functions

    An [async] function is a tree of synchronous state updates and
    awaited Data Store calls; between two awaits its body runs without
    interruption, and at an await it is suspended until the host resumes
    it with the reply, in whatever state the component is by then. *)
Inductive Task (A : Type) : Type :=
| Ret (a : A)
| Throw (e : Exn)
| Upd (f : State -> State) (k : Task A)
| AwaitSelect (k : Result (list Bookmark.t) -> Task A)
| AwaitInsert (row : NewRow) (k : Result Bookmark.t -> Task A)
| AwaitDelete (id : jsstring) (k : Result unit -> Task A).
Arguments Ret {A} _.
Arguments Throw {A} _.
Arguments Upd {A} _ _.
Arguments AwaitSelect {A} _.
Arguments AwaitInsert {A} _ _.
Arguments AwaitDelete {A} _ _.

Fixpoint bind {A B : Type} (t : Task A) (g : A -> Task B) : Task B :=
  match t with
  | Ret a => g a
  | Throw e => Throw e
  | Upd f k => Upd f (bind k g)
  | AwaitSelect k => AwaitSelect (fun r => bind (k r) g)
  | AwaitInsert row k => AwaitInsert row (fun r => bind (k r) g)
  | AwaitDelete i k => AwaitDelete i (fun r => bind (k r) g)
  end.

(** [try { t } catch { h }]. *)
Fixpoint try_catch {A : Type} (t : Task A) (h : Exn -> Task A) : Task A :=
  match t with
  | Ret a => Ret a
  | Throw e => h e
  | Upd f k => Upd f (try_catch k h)
  | AwaitSelect k => AwaitSelect (fun r => try_catch (k r) h)
  | AwaitInsert row k => AwaitInsert row (fun r => try_catch (k r) h)
  | AwaitDelete i k => AwaitDelete i (fun r => try_catch (k r) h)
  end.

Declare Scope task_scope.
Delimit Scope task_scope with task.
Bind Scope task_scope with Task.
Notation "x <- t ;; k" := (bind t (fun x => k))
  (at level 100, t at next level, right associativity) : task_scope.
Notation "t ;; k" := (bind t (fun _ => k))
  (at level 100, right associativity) : task_scope.

(** A call of a state setter. *)
Definition call (f : State -> State) : Task unit := Upd f (Ret tt).

(** Where a task stands once its synchronous prefix has run. *)
Inductive Outcome (A : Type) : Type :=
| Finished (a : A)
| Uncaught (e : Exn)
| OnSelect (k : Result (list Bookmark.t) -> Task A)
| OnInsert (row : NewRow) (k : Result Bookmark.t -> Task A)
| OnDelete (id : jsstring) (k : Result unit -> Task A).
Arguments Finished {A} _.
Arguments Uncaught {A} _.
Arguments OnSelect {A} _.
Arguments OnInsert {A} _ _.
Arguments OnDelete {A} _ _.

(** Run a task from state [s] up to its end or its next await. *)
Fixpoint run {A : Type} (t : Task A) (s : State) : State * Outcome A :=
  match t with
  | Ret a => (s, Finished a)
  | Throw e => (s, Uncaught e)
  | Upd f k => run k (f s)
  | AwaitSelect k => (s, OnSelect k)
  | AwaitInsert row k => (s, OnInsert row k)
  | AwaitDelete i k => (s, OnDelete i k)
  end.

Definition await_select : Task (Result (list Bookmark.t)) := AwaitSelect Ret.
Definition await_insert (row : NewRow) : Task (Result Bookmark.t) :=
  AwaitInsert row Ret.
Definition await_delete (id : jsstring) : Task (Result unit) :=
  AwaitDelete id Ret.

(** ** The component *)

Section Component.

Local Open Scope task_scope.

(** The [userId] prop. *)
Variable userId : jsstring.

(** The host's URL parser: whether [new URL(u)] accepts [u]. *)
Variable URL_parses : jsstring -> bool.

(** [new URL(u)], evaluated for its exception only. *)
Definition new_URL (u : jsstring) : Task unit :=
  if URL_parses u then Ret tt else Throw TypeError.

(** [fetchBookmarks] (lines 51-62). *)
Definition fetchBookmarks : Task unit :=
  r <- await_select ;;
  match error r with
  | Some e => call (setMessage (Some (mkMessage err (PostgrestError.message e))))
  | None => call (setItems (fun _ => default [] (data r)))
  end.

(** The body of the initial-load effect (lines 132-136), for the run of
    the effect whose [mounted] variable is [cell]. *)
Definition initialLoad (cell : nat) : Task unit :=
  call (setLoading true) ;;
  fetchBookmarks ;;
  call (fun s => if readMounted cell s then setLoading false s else s).

(** [addBookmark] (lines 176-219); [title] and [url] are the values of
    the two inputs captured by the closure that handles the submit. *)
Definition addBookmark (title url : jsstring) : Task unit :=
  call (setMessage None) ;;
  let t := trim title in
  let u := normalizeUrl url in
  if falsy t then
    call (setMessage (Some (mkMessage err (lit "Please enter a title."))))
  else if falsy u then
    call (setMessage (Some (mkMessage err (lit "Please enter a URL."))))
  else
    returned <- try_catch
      (new_URL u ;; Ret false)
      (fun _ =>
         call (setMessage (Some (mkMessage err (lit "Please enter a valid URL.")))) ;;
         Ret true) ;;
    if returned : bool then Ret tt
    else
      call (setSubmitting true) ;;
      r <- await_insert (mkNewRow userId t u) ;;
      call (setSubmitting false) ;;
      match error r with
      | Some e =>
          call (setMessage (Some (mkMessage err (PostgrestError.message e))))
      | None =>
          match data r with
          | Some d => call (setItems (fun prev => d :: prev))
          | None => fetchBookmarks
          end ;;
          call (setTitle empty_string) ;;
          call (setUrl empty_string) ;;
          call (setMessage (Some (mkMessage ok (lit "Bookmark added!"))))
      end.

(** [deleteBookmark] (lines 225-241). *)
Definition deleteBookmark (id : jsstring) : Task unit :=
  call (setMessage None) ;;
  call (setDeletingId (Some id)) ;;
  r <- await_delete id ;;
  call (setDeletingId None) ;;
  match error r with
  | Some e => call (setMessage (Some (mkMessage err (PostgrestError.message e))))
  | None =>
      call (setItems (fun prev => filter (fun b => Bookmark.id b ≠ id) prev)) ;;
      call (setMessage (Some (mkMessage ok (lit "Deleted."))))
  end.

(** ** The event loop

    The host runs one callback at a time. A suspended task waits in
    [pending] under the number of its request; [unhandled] collects the
    exceptions that escaped a task. *)
Inductive Pending : Type :=
| PSelect (k : Result (list Bookmark.t) -> Task unit)
| PInsert (row : NewRow) (k : Result Bookmark.t -> Task unit)
| PDelete (id : jsstring) (k : Result unit -> Task unit).

Record Loop : Type := mkLoop {
  ui : State;
  pending : gmap nat Pending;
  nextRequest : nat;
  unhandled : list Exn
}.

Definition initialLoop (t0 : Z) : Loop := mkLoop (initialState t0) ∅ 0 [].

Definition with_ui (f : State -> State) (L : Loop) : Loop :=
  mkLoop (f (ui L)) (pending L) (nextRequest L) (unhandled L).

Definition suspend (p : Pending) (s : State) (L : Loop) : Loop :=
  mkLoop s (<[nextRequest L := p]> (pending L)) (S (nextRequest L)) (unhandled L).

(** Start (or resume) a task: run it to its next await and park it. *)
Definition launch (t : Task unit) (L : Loop) : Loop :=
  match run t (ui L) with
  | (s, Finished _) => with_ui (fun _ => s) L
  | (s, Uncaught e) =>
      mkLoop s (pending L) (nextRequest L) (unhandled L ++ [e])
  | (s, OnSelect k) => suspend (PSelect k) s L
  | (s, OnInsert row k) => suspend (PInsert row k) s L
  | (s, OnDelete i k) => suspend (PDelete i k) s L
  end.

(** A reply of the Data Store to one of the three calls. *)
Inductive Reply : Type :=
| RSelect (r : Result (list Bookmark.t))
| RInsert (r : Result Bookmark.t)
| RDelete (r : Result unit).

(** A due timer fires: it leaves the queue and its callback
    [() => setMessage(null)] runs. A timer cleared meanwhile does not
    fire. *)
Definition fire (t : nat) (s : State) : State :=
  if existsb (fun p => fst p =? t) (timers s)
  then setMessage None (clearTimeout t s)
  else s.

Definition advance (dt : Z) (s : State) : State :=
  mkState (title s) (url s) (items s) (loading s) (submitting s)
    (deletingId s) (message s) (mounted s) (now s + dt)%Z (timers s)
    (nextTimer s) (toastTimer s).

(** [dt] milliseconds pass: the timers due by then fire, oldest first. *)
Definition elapse (dt : Z) (s : State) : State :=
  let s' := advance dt s in
  foldl (fun acc p => fire (fst p) acc) s'
    (List.filter (fun p => (snd p <=? now s')%Z) (timers s')).

Inductive Event : Type :=
| EffectRun                       (* the initial-load effect runs *)
| EffectCleanup (cell : nat)      (* ... and is cleaned up *)
| ChangeTitle (v : jsstring)      (* onChange of the title input *)
| ChangeUrl (v : jsstring)        (* onChange of the URL input *)
| Submit                          (* onSubmit of the form *)
| ClickDelete (id : jsstring)     (* onClick of a Delete button *)
| WindowFocus                     (* "focus" on window *)
| VisibilityChange (hidden : bool)
| RealtimeChange                  (* a postgres_changes notification *)
| Resolve (n : nat) (r : Reply)   (* request [n] is answered *)
| Elapse (dt : Z).                (* time passes *)

Definition step (e : Event) (L : Loop) : option Loop :=
  match e with
  | EffectRun =>
      let '(cell, s) := allocMounted (ui L) in
      Some (launch (initialLoad cell) (with_ui (fun _ => s) L))
  | EffectCleanup cell => Some (with_ui (clearMounted cell) L)
  | ChangeTitle v => Some (with_ui (setTitle v) L)
  | ChangeUrl v => Some (with_ui (setUrl v) L)
  | Submit => Some (launch (addBookmark (title (ui L)) (url (ui L))) L)
  | ClickDelete i => Some (launch (deleteBookmark i) L)
  | WindowFocus => Some (launch fetchBookmarks L)
  | VisibilityChange hidden =>
      if hidden then Some L else Some (launch fetchBookmarks L)
  | RealtimeChange => Some (launch fetchBookmarks L)
  | Resolve n r =>
      let L' := mkLoop (ui L) (delete n (pending L)) (nextRequest L) (unhandled L) in
      match pending L !! n, r with
      | Some (PSelect k), RSelect res => Some (launch (k res) L')
      | Some (PInsert _ k), RInsert res => Some (launch (k res) L')
      | Some (PDelete _ k), RDelete res => Some (launch (k res) L')
      | _, _ => None
      end
  | Elapse dt =>
      if (dt <? 0)%Z then None else Some (with_ui (elapse dt) L)
  end.

Fixpoint steps (es : list Event) (L : Loop) : option Loop :=
  match es with
  | [] => Some L
  | e :: es' =>
      match step e L with
      | Some L' => steps es' L'
      | None => None
      end
  end.

End Component.

(** ** Predicates on tasks *)

(** Every state update of the task, on every path and after every
    reply, is within [R]. *)
Inductive Every {A : Type} (R : State -> State -> Prop) : Task A -> Prop :=
| Every_Ret a : Every R (Ret a)
| Every_Throw e : Every R (Throw e)
| Every_Upd f k : (forall s, R s (f s)) -> Every R k -> Every R (Upd f k)
| Every_AwaitSelect k : (forall r, Every R (k r)) -> Every R (AwaitSelect k)
| Every_AwaitInsert row k :
    (forall r, Every R (k r)) -> Every R (AwaitInsert row k)
| Every_AwaitDelete i k :
    (forall r, Every R (k r)) -> Every R (AwaitDelete i k).

(** No path of the task, whatever the replies, ends in an exception
    that escapes it. *)
Inductive NeverThrows {A : Type} : Task A -> Prop :=
| NT_Ret a : NeverThrows (Ret a)
| NT_Upd f k : NeverThrows k -> NeverThrows (Upd f k)
| NT_AwaitSelect k : (forall r, NeverThrows (k r)) -> NeverThrows (AwaitSelect k)
| NT_AwaitInsert row k :
    (forall r, NeverThrows (k r)) -> NeverThrows (AwaitInsert row k)
| NT_AwaitDelete i k :
    (forall r, NeverThrows (k r)) -> NeverThrows (AwaitDelete i k).

(** The records of a collection that carry a given identifier. *)
Definition with_id (i : jsstring) (l : list Bookmark.t) : list Bookmark.t :=
  filter (fun b => Bookmark.id b = i) l.

(** ** The toast and its timer

    The state of the toast: without a notice no timer is queued; with a
    notice exactly one is, the one the clean-up of the effect holds, and
    it is due within 2500 ms. *)
Definition toast_inv (s : State) : Prop :=
  match message s with
  | None => timers s = [] /\ toastTimer s = None
  | Some _ =>
      exists (t : nat) (due : Z),
        timers s = [(t, due)] /\ toastTimer s = Some t /\
        (now s < due <= now s + 2500)%Z
  end.

(** An update that keeps the toast in order and leaves the [mounted]
    variables alone. *)
Definition keeps (s s' : State) : Prop :=
  (toast_inv s -> toast_inv s') /\ mounted s' = mounted s.

(** A task all of whose updates are such, and that lets no exception
    escape. *)
Definition Safe (t : Task unit) : Prop :=
  Every keeps t /\ NeverThrows t.

Definition Pending_safe (p : Pending) : Prop :=
  match p with
  | PSelect k => forall r, Safe (k r)
  | PInsert _ k => forall r, Safe (k r)
  | PDelete _ k => forall r, Safe (k r)
  end.

Definition loop_inv (L : Loop) : Prop :=
  toast_inv (ui L) /\ unhandled L = [] /\
  forall n p, pending L !! n = Some p -> Pending_safe p.

(** ** Sample data for the scenarios *)

Definition bookmarkA : Bookmark.t :=
  Bookmark.mk (lit "1") (lit "u") (lit "A") (lit "https://a.example/")
    (lit "2024-01-01T00:00:00Z").

Definition bookmarkB : Bookmark.t :=
  Bookmark.mk (lit "2") (lit "u") (lit "B") (lit "https://b.example/")
    (lit "2024-01-02T00:00:00Z").

Definition bookmarkDocs : Bookmark.t :=
  Bookmark.mk (lit "9") (lit "u") (lit "Docs") (lit "https://example.org/x")
    (lit "2024-01-03T00:00:00Z").

(** A mounted component that shows [A(id=1), B(id=2)], and its loop. *)
Definition twoBookmarks : State :=
  setLoading false (setItems (fun _ => [bookmarkA; bookmarkB]) (initialState 0)).

Definition twoBookmarksLoop : Loop := mkLoop twoBookmarks ∅ 0 [].

(** A stand-in for the host's parser in the scenarios: it refuses the
    strings that contain white space. *)
Definition rejects_spaces (u : jsstring) : bool :=
  negb (existsb is_white_space u).

(** ** What the rendered page lets the user do

    The submit button carries [disabled={submitting}] (line 321), and a
    disabled default button also stops the implicit submission of the
    form. A Delete button exists for the rows of the list only, which is
    rendered when [loading] is false (lines 335-412), and it carries
    [disabled={deletingId === b.id}] (line 402). *)
Definition submitDisabled (s : State) : bool := submitting s.

Definition deleteDisabled (b : Bookmark.t) (s : State) : bool :=
  bool_decide (deletingId s = Some (Bookmark.id b)).

Definition deleteButtonEnabled (i : jsstring) (s : State) : bool :=
  negb (loading s) &&
  existsb (fun b => bool_decide (Bookmark.id b = i) && negb (deleteDisabled b s))
    (items s).

Section Guarded.

Variable userId : jsstring.
Variable URL_parses : jsstring -> bool.

(** An event the page in state [s] can produce. *)
Definition permitted (e : Event) (s : State) : bool :=
  match e with
  | Submit => negb (submitDisabled s)
  | ClickDelete i => deleteButtonEnabled i s
  | _ => true
  end.

Definition ui_step (e : Event) (L : Loop) : option Loop :=
  if permitted e (ui L) then step userId URL_parses e L else None.

Fixpoint ui_steps (es : list Event) (L : Loop) : option Loop :=
  match es with
  | [] => Some L
  | e :: es' =>
      match ui_step e L with
      | Some L' => ui_steps es' L'
      | None => None
      end
  end.

End Guarded.

Definition is_insert (p : Pending) : bool :=
  match p with
  | PInsert _ _ => true
  | _ => false
  end.

(** A task that awaits no insert and none of whose updates changes
    [submitting], on any path and after every reply. *)
Inductive Quiet {A : Type} : Task A -> Prop :=
| Quiet_Ret a : Quiet (Ret a)
| Quiet_Throw e : Quiet (Throw e)
| Quiet_Upd f k :
    (forall s, submitting (f s) = submitting s) -> Quiet k -> Quiet (Upd f k)
| Quiet_AwaitSelect k : (forall r, Quiet (k r)) -> Quiet (AwaitSelect k)
| Quiet_AwaitDelete i k : (forall r, Quiet (k r)) -> Quiet (AwaitDelete i k).

(** What a parked task does once it is resumed: the task parked on an
    insert lowers [submitting] first and is quiet from there on; the
    others are quiet. *)
Definition Pending_quiet (p : Pending) : Prop :=
  match p with
  | PInsert _ k =>
      forall r, exists rest, k r = Upd (setSubmitting false) rest /\ Quiet rest
  | PSelect k => forall r, Quiet (k r)
  | PDelete _ k => forall r, Quiet (k r)
  end.

(** [submitting] is raised exactly while one insert is in flight. *)
Definition insert_inv (L : Loop) : Prop :=
  (forall n p, pending L !! n = Some p -> n < nextRequest L /\ Pending_quiet p) /\
  (submitting (ui L) = false ->
   forall n p, pending L !! n = Some p -> is_insert p = false) /\
  (submitting (ui L) = true ->
   exists n p, pending L !! n = Some p /\ is_insert p = true) /\
  (forall n m p q,
     pending L !! n = Some p -> pending L !! m = Some q ->
     is_insert p = true -> is_insert q = true -> n = m).

(** A task that awaits no delete and none of whose updates changes
    [deletingId], on any path and after every reply. *)
Inductive Calm {A : Type} : Task A -> Prop :=
| Calm_Ret a : Calm (Ret a)
| Calm_Throw e : Calm (Throw e)
| Calm_Upd f k :
    (forall s, deletingId (f s) = deletingId s) -> Calm k -> Calm (Upd f k)
| Calm_AwaitSelect k : (forall r, Calm (k r)) -> Calm (AwaitSelect k)
| Calm_AwaitInsert row k : (forall r, Calm (k r)) -> Calm (AwaitInsert row k).

(** The task parked on a delete clears [deletingId] first and is calm
    from there on; the others are calm. *)
Definition Pending_calm (p : Pending) : Prop :=
  match p with
  | PDelete _ k =>
      forall r, exists rest, k r = Upd (setDeletingId None) rest /\ Calm rest
  | PSelect k => forall r, Calm (k r)
  | PInsert _ k => forall r, Calm (k r)
  end.

(** [deletingId] names a row only while a delete of that row is in
    flight. *)
Definition deleting_inv (L : Loop) : Prop :=
  (forall n p, pending L !! n = Some p -> n < nextRequest L /\ Pending_calm p) /\
  (forall i, deletingId (ui L) = Some i ->
   exists n k, pending L !! n = Some (PDelete i k)).

(** ** [getHostname] and what a row shows of it *)

Section Hostname.

(** [new URL(u).hostname] of the host: the exception [new URL] throws,
    or the host name. *)
Variable URL_hostname : jsstring -> Exn + jsstring.

(** [h.replace(/^www\./, "")]: the pattern is anchored and has no flag. *)
Definition strip_www (h : jsstring) : jsstring :=
  if starts_with (lit "www.") h then drop 4 h else h.

(** [getHostname] (lines 22-28). *)
Definition getHostname (u : jsstring) : jsstring :=
  match URL_hostname u with
  | inr h => strip_www h
  | inl _ => empty_string
  end.

(** The favicon address of a row, or [null] (lines 354-357). *)
Definition favicon (b : Bookmark.t) : option jsstring :=
  let host := getHostname (Bookmark.url b) in
  if falsy host then None
  else Some (lit "https://www.google.com/s2/favicons?domain=" ++ host
             ++ lit "&sz=64").

(** [host || "link"] (line 393). *)
Definition hostLabel (b : Bookmark.t) : jsstring :=
  let host := getHostname (Bookmark.url b) in
  if falsy host then lit "link" else host.

End Hostname.

(** ** The focus effect (lines 116-123)

    The listeners the component has on [window]. A function expression
    evaluates to a new function object each time, named here by a
    number; [addEventListener] ignores a listener already registered for
    the event, [removeEventListener] removes the one it is given. *)
Inductive EventName : Type := focus | visibilitychange.

Definition EventName_eqb (a b : EventName) : bool :=
  match a, b with
  | focus, focus => true
  | visibilitychange, visibilitychange => true
  | _, _ => false
  end.

Record Window : Type := mkWindow {
  listeners : list (EventName * nat);
  nextClosure : nat
}.

Definition same_listener (ty : EventName) (f : nat) (p : EventName * nat) : bool :=
  EventName_eqb (fst p) ty && (snd p =? f).

Definition newClosure (w : Window) : nat * Window :=
  (nextClosure w, mkWindow (listeners w) (S (nextClosure w))).

Definition addEventListener (ty : EventName) (f : nat) (w : Window) : Window :=
  if existsb (same_listener ty f) (listeners w) then w
  else mkWindow (listeners w ++ [(ty, f)]) (nextClosure w).

Definition removeEventListener (ty : EventName) (f : nat) (w : Window) : Window :=
  mkWindow (List.filter (fun p => negb (same_listener ty f p)) (listeners w))
    (nextClosure w).

(** The effect body: [onFocus] and the anonymous listener are created
    and registered; the result is the [onFocus] its clean-up holds. *)
Definition focusEffect (w : Window) : nat * Window :=
  let '(onFocus, w1) := newClosure w in
  let '(onVisibility, w2) := newClosure w1 in
  (onFocus,
   addEventListener focus onFocus
     (addEventListener visibilitychange onVisibility w2)).

(** The clean-up: [window.removeEventListener("focus", onFocus)]. *)
Definition focusCleanup (onFocus : nat) (w : Window) : Window :=
  removeEventListener focus onFocus w.

(** One run of the effect followed by its clean-up. *)
Definition focusCycle (w : Window) : Window :=
  let '(onFocus, w') := focusEffect w in focusCleanup onFocus w'.

Definition listening (ty : EventName) (w : Window) : nat :=
  length (List.filter (fun p => EventName_eqb (fst p) ty) (listeners w)).

(** How often [fetchBookmarks] is called when the event is dispatched:
    once by each [focus] listener, and once by each [visibilitychange]
    listener unless the document is hidden. *)
Definition fetches_on (ty : EventName) (hidden : bool) (w : Window) : nat :=
  match ty with
  | focus => listening focus w
  | visibilitychange => if hidden then 0 else listening visibilitychange w
  end.

(** No listener bears a number that is still to be given out. *)
Definition fresh_closures (w : Window) : Prop :=
  Forall (fun p => snd p < nextClosure w) (listeners w).

(** ** The realtime effect (lines 65-114)

    One run of the effect, seen through the calls it makes on the
    client. [session] below is the access token of the session, if there
    is a session. *)
Inductive ClientCall : Type :=
| GetSession
| OnAuthStateChange
| SetAuth (token : jsstring)
| Subscribe (name filter : jsstring) (ch : nat)
| UnsubscribeAuth
| RemoveChannel (ch : nat).

Record RealtimeRun : Type := mkRealtimeRun {
  channel : option nat;       (* [let channel] of the run *)
  awaitingSession : bool;     (* [setupRealtime] is at its await *)
  authListener : bool;        (* the auth listener is subscribed *)
  calls : list ClientCall;
  nextChannel : nat
}.

Section Realtime.

Variable userId : jsstring.

(** The effect body: [setupRealtime()] runs up to its await, then the
    auth listener is registered. *)
Definition realtimeEffect (next : nat) : RealtimeRun :=
  mkRealtimeRun None true true [GetSession; OnAuthStateChange] next.

(** [if (token) supabase.realtime.setAuth(token)]. *)
Definition setAuth_if (token : option jsstring) : list ClientCall :=
  match token with
  | Some t => if falsy t then [] else [SetAuth t]
  | None => []
  end.

(** [setupRealtime] resumed with the session (lines 71-96). *)
Definition setupRealtime_resume (session : option jsstring) (r : RealtimeRun)
    : RealtimeRun :=
  let ch := nextChannel r in
  mkRealtimeRun (Some ch) false (authListener r)
    (calls r ++ setAuth_if session
     ++ [Subscribe (lit "bookmarks:" ++ userId) (lit "user_id=eq." ++ userId) ch])
    (S ch).

(** The auth listener (lines 103-107). *)
Definition onAuthStateChange (session : option jsstring) (r : RealtimeRun)
    : RealtimeRun :=
  mkRealtimeRun (channel r) (awaitingSession r) (authListener r)
    (calls r ++ setAuth_if session) (nextChannel r).

(** The clean-up (lines 110-113). *)
Definition realtimeCleanup (r : RealtimeRun) : RealtimeRun :=
  mkRealtimeRun (channel r) (awaitingSession r) false
    (calls r ++ [UnsubscribeAuth]
     ++ match channel r with
        | Some ch => [RemoveChannel ch]
        | None => []
        end)
    (nextChannel r).

Inductive RealtimeEvent : Type :=
| SessionResolved (session : option jsstring)
| AuthChanged (session : option jsstring)
| CleanedUp.

Definition realtime_step (e : RealtimeEvent) (r : RealtimeRun) : RealtimeRun :=
  match e with
  | SessionResolved session =>
      if awaitingSession r then setupRealtime_resume session r else r
  | AuthChanged session =>
      if authListener r then onAuthStateChange session r else r
  | CleanedUp => realtimeCleanup r
  end.

Definition realtime_run (es : list RealtimeEvent) (r : RealtimeRun) : RealtimeRun :=
  foldl (fun acc e => realtime_step e acc) r es.

End Realtime.

(** The calls the auth listener makes for a sequence of auth events. *)
Definition auth_calls (ss : list (option jsstring)) : list ClientCall :=
  List.concat (List.map setAuth_if ss).

(** The channels subscribed and not removed, by the calls made. *)
Definition join_call (acc : list nat) (c : ClientCall) : list nat :=
  match c with
  | Subscribe _ _ ch => acc ++ [ch]
  | RemoveChannel ch => List.filter (fun x => negb (x =? ch)) acc
  | _ => acc
  end.

Definition joined (cs : list ClientCall) : list nat := foldl join_call [] cs.

(** ** More sample data *)

(** The loop of a component that shows [A(id=1), B(id=2)] and whose form
    holds "Docs" and "example.org/x". *)
Definition docsFormLoop : Loop :=
  mkLoop (setUrl (lit "example.org/x") (setTitle (lit "Docs") twoBookmarks))
    ∅ 0 [].

(** A stand-in for the host name the parser finds: every string without
    white space is taken to name [www.example.org]. *)
Definition names_www_example_org (u : jsstring) : Exn + jsstring :=
  if rejects_spaces u then inr (lit "www.example.org") else inl TypeError.

(** Mount, first snapshot, then the form is filled in and submitted. *)
Definition submitDocsTrace : list Event :=
  [EffectRun;
   Resolve 0 (RSelect (mkResult (Some [bookmarkA; bookmarkB]) None));
   ChangeTitle (lit "Docs"); ChangeUrl (lit "example.org/x"); Submit].

(** Mount, first snapshot, then a click on the Delete of row 1. *)
Definition deleteFirstTrace : list Event :=
  [EffectRun;
   Resolve 0 (RSelect (mkResult (Some [bookmarkA; bookmarkB]) None));
   ClickDelete (lit "1")].

(** * Properties *)

(** ** Strings and [normalizeUrl] *)

Local Open Scope N_scope.

Example normalizeUrl_ex1 : normalizeUrl (lit "  example.com ") = lit "https://example.com".
Proof. vm_compute. reflexivity. Qed.
Example normalizeUrl_ex2 : normalizeUrl (lit "HTTPs://a.b") = lit "HTTPs://a.b".
Proof. vm_compute. reflexivity. Qed.
Example normalizeUrl_ex3 : normalizeUrl (lit "ftp://a.b") = lit "https://ftp://a.b".
Proof. vm_compute. reflexivity. Qed.
Example normalizeUrl_ex4 : normalizeUrl (lit "httpx://a.b") = lit "https://httpx://a.b".
Proof. vm_compute. reflexivity. Qed.

Lemma trimStart_idem (s : jsstring) : trimStart (trimStart s) = trimStart s.
Proof.
  induction s as [|c s IH]; simpl; [reflexivity|].
  destruct (is_white_space c) eqn:Hc; [exact IH|].
  simpl. rewrite Hc. reflexivity.
Qed.

Lemma trimEnd_cons_nonempty (c : N) (s : jsstring) :
  trimEnd s <> [] -> trimEnd (c :: s) = c :: trimEnd s.
Proof.
  simpl. destruct (trimEnd s); [intros H; contradiction H; reflexivity|reflexivity].
Qed.

(** A string already trimmed at its end stays so under any prefix. *)
Lemma trimEnd_app_fixed (p v : jsstring) :
  v <> [] -> trimEnd v = v -> trimEnd (p ++ v) = p ++ v.
Proof.
  intros Hne Hv. induction p as [|c p IH]; simpl app; [exact Hv|].
  rewrite trimEnd_cons_nonempty; rewrite IH; [reflexivity|].
  destruct p; simpl; [exact Hne|discriminate].
Qed.

Lemma trimEnd_idem (s : jsstring) : trimEnd (trimEnd s) = trimEnd s.
Proof.
  induction s as [|c s IH]; [reflexivity|].
  simpl. destruct (trimEnd s) as [|d r] eqn:Hs.
  - destruct (is_white_space c) eqn:Hc; simpl; [reflexivity|].
    rewrite Hc. reflexivity.
  - change (trimEnd (c :: d :: r) = c :: d :: r).
    rewrite trimEnd_cons_nonempty; rewrite IH; [reflexivity|discriminate].
Qed.

Lemma trimStart_trimEnd (s : jsstring) :
  trimStart (trimEnd s) = trimEnd (trimStart s).
Proof.
  induction s as [|c s IH]; [reflexivity|].
  destruct (is_white_space c) eqn:Hc.
  - simpl trimStart at 2. rewrite Hc, <- IH.
    simpl. destruct (trimEnd s) as [|d r] eqn:Hs.
    + rewrite Hc. reflexivity.
    + simpl. rewrite Hc. reflexivity.
  - simpl trimStart at 2. rewrite Hc.
    simpl. destruct (trimEnd s) as [|d r] eqn:Hs.
    + rewrite Hc. simpl. rewrite Hc. reflexivity.
    + simpl. rewrite Hc. reflexivity.
Qed.

Lemma trim_idem (s : jsstring) : trim (trim s) = trim s.
Proof.
  unfold trim.
  rewrite trimStart_trimEnd, trimStart_idem, trimEnd_idem. reflexivity.
Qed.

Lemma trimEnd_trim (s : jsstring) : trimEnd (trim s) = trim s.
Proof. unfold trim. apply trimEnd_idem. Qed.

(** The default scheme does not disturb a trimmed, non-empty string. *)
Lemma trim_https_prefix (v : jsstring) :
  v <> [] -> trim v = v -> trim (lit "https://" ++ v) = lit "https://" ++ v.
Proof.
  intros Hne Hv. unfold trim.
  change (trimStart (lit "https://" ++ v)) with (lit "https://" ++ v).
  apply trimEnd_app_fixed; [exact Hne|].
  rewrite <- Hv at 1. rewrite trimEnd_trim. exact Hv.
Qed.

(** [normalizeUrl] by cases on the trimmed input. *)
Lemma normalizeUrl_empty (raw : jsstring) :
  trim raw = [] -> normalizeUrl raw = [].
Proof.
  intros H. unfold normalizeUrl. rewrite H. reflexivity.
Qed.

Lemma normalizeUrl_http (raw : jsstring) :
  test_http_scheme (trim raw) = true -> normalizeUrl raw = trim raw.
Proof.
  intros H. unfold normalizeUrl. rewrite H.
  destruct (trim raw); [discriminate H|reflexivity].
Qed.

Lemma normalizeUrl_other (raw : jsstring) :
  trim raw <> [] -> test_http_scheme (trim raw) = false ->
  normalizeUrl raw = lit "https://" ++ trim raw.
Proof.
  intros Hne H. unfold normalizeUrl. rewrite H.
  destruct (trim raw); [contradiction Hne; reflexivity|reflexivity].
Qed.

Lemma normalizeUrl_nil_iff (raw : jsstring) :
  normalizeUrl raw = [] <-> trim raw = [].
Proof.
  split; [|apply normalizeUrl_empty].
  unfold normalizeUrl. destruct (trim raw) as [|c v]; [reflexivity|].
  simpl falsy. cbv iota.
  destruct (test_http_scheme (c :: v)); simpl; discriminate.
Qed.

(** [!u] on the normalised URL asks whether the trimmed URL is empty. *)
Lemma falsy_normalizeUrl (raw : jsstring) :
  falsy (normalizeUrl raw) = falsy (trim raw).
Proof.
  destruct (trim raw) as [|c v] eqn:Hv.
  - rewrite (normalizeUrl_empty raw Hv). reflexivity.
  - destruct (normalizeUrl raw) eqn:Hn; [|reflexivity].
    apply normalizeUrl_nil_iff in Hn. congruence.
Qed.

Lemma normalizeUrl_idem (raw : jsstring) :
  normalizeUrl (normalizeUrl raw) = normalizeUrl raw.
Proof.
  destruct (trim raw) as [|c v] eqn:Ht.
  - rewrite (normalizeUrl_empty raw Ht). reflexivity.
  - assert (Hne : trim raw <> []) by (rewrite Ht; discriminate).
    destruct (test_http_scheme (trim raw)) eqn:Hs.
    + rewrite (normalizeUrl_http raw Hs).
      rewrite (normalizeUrl_http (trim raw)); rewrite trim_idem; [reflexivity|exact Hs].
    + rewrite (normalizeUrl_other raw Hne Hs).
      assert (Hfix : trim (lit "https://" ++ trim raw) = lit "https://" ++ trim raw)
        by (apply trim_https_prefix; [exact Hne|apply trim_idem]).
      rewrite normalizeUrl_http; rewrite Hfix; reflexivity.
Qed.

Lemma ci_lower (c : N) (a : Ascii.ascii) :
  0x61 <= Ascii.N_of_ascii a <= 0x7A ->
  ci c a = (lower_ascii c =? Ascii.N_of_ascii a).
Proof.
  intros Ha. unfold ci, lower_ascii.
  apply Bool.eq_iff_eq_true.
  rewrite Bool.orb_true_iff, !N.eqb_eq.
  destruct (0x41 <=? c) eqn:H1; destruct (c <=? 0x5A) eqn:H2; simpl;
    try (apply N.leb_le in H1); try (apply N.leb_gt in H1);
    try (apply N.leb_le in H2); try (apply N.leb_gt in H2); lia.
Qed.

Lemma lower_eqb_other (c a : N) :
  a < 0x41 -> (lower_ascii c =? a) = (c =? a).
Proof.
  intros Ha. unfold lower_ascii.
  destruct (0x41 <=? c) eqn:H1; destruct (c <=? 0x5A) eqn:H2; simpl;
    try reflexivity.
  apply N.leb_le in H1. apply N.leb_le in H2.
  transitivity false; [|symmetry]; apply N.eqb_neq; lia.
Qed.

Lemma starts_with_scheme_sep_lower (r : jsstring) :
  starts_with (lit "://") (List.map lower_ascii r) = starts_with (lit "://") r.
Proof.
  destruct r as [|a [|b [|c r]]]; simpl; try reflexivity;
    rewrite ?lower_eqb_other by (vm_compute; reflexivity); reflexivity.
Qed.

(** The pattern with its [i] flag says what [has_http_scheme] says. *)
Lemma test_http_scheme_spec (v : jsstring) :
  test_http_scheme v = has_http_scheme v.
Proof.
  unfold has_http_scheme.
  destruct v as [|c1 [|c2 [|c3 [|c4 r]]]];
    try (simpl; rewrite ?Bool.andb_false_r; reflexivity).
  unfold test_http_scheme.
  rewrite !ci_lower by (vm_compute; split; discriminate).
  change (List.map lower_ascii (c1 :: c2 :: c3 :: c4 :: r))
    with (lower_ascii c1 :: lower_ascii c2 :: lower_ascii c3
          :: lower_ascii c4 :: List.map lower_ascii r).
  change (starts_with (lit "http://") (lower_ascii c1 :: lower_ascii c2
            :: lower_ascii c3 :: lower_ascii c4 :: List.map lower_ascii r))
    with ((lower_ascii c1 =? 104) && ((lower_ascii c2 =? 116)
          && ((lower_ascii c3 =? 116) && ((lower_ascii c4 =? 112)
          && starts_with (lit "://") (List.map lower_ascii r))))).
  change (starts_with (lit "https://") (lower_ascii c1 :: lower_ascii c2
            :: lower_ascii c3 :: lower_ascii c4 :: List.map lower_ascii r))
    with ((lower_ascii c1 =? 104) && ((lower_ascii c2 =? 116)
          && ((lower_ascii c3 =? 116) && ((lower_ascii c4 =? 112)
          && starts_with (lit "s://") (List.map lower_ascii r))))).
  change (Ascii.N_of_ascii "h") with 104.
  change (Ascii.N_of_ascii "t") with 116.
  change (Ascii.N_of_ascii "p") with 112.
  rewrite starts_with_scheme_sep_lower.
  destruct r as [|c5 r'].
  - simpl. rewrite !Bool.andb_false_r. reflexivity.
  - change (starts_with (lit "s://") (List.map lower_ascii (c5 :: r')))
      with ((lower_ascii c5 =? 115) && starts_with (lit "://") (List.map lower_ascii r')).
    rewrite starts_with_scheme_sep_lower.
    rewrite ci_lower by (vm_compute; split; discriminate).
    change (Ascii.N_of_ascii "s") with 115.
    destruct (lower_ascii c1 =? 104), (lower_ascii c2 =? 116),
      (lower_ascii c3 =? 116), (lower_ascii c4 =? 112),
      (lower_ascii c5 =? 115), (starts_with (lit "://") r'),
      (starts_with (lit "://") (c5 :: r')); reflexivity.
Qed.

(** C5, counterexample. [ftp://example.com] is absolute, it has the
    scheme [ftp], and is already trimmed; [normalizeUrl] does not return it
    unchanged but puts the default scheme in front of it. *)
Lemma normalizeUrl_prefixes_ftp_url :
  has_scheme (lit "ftp://example.com") = true /\
  trim (lit "ftp://example.com") = lit "ftp://example.com" /\
  normalizeUrl (lit "ftp://example.com") = lit "https://ftp://example.com" /\
  normalizeUrl (lit "ftp://example.com") <> trim (lit "ftp://example.com").
Proof.
  split; [reflexivity|]. split; [reflexivity|]. split; [reflexivity|].
  vm_compute. discriminate.
Qed.

(** C5, as amended. [normalizeUrl] is idempotent. An input that, once
    trimmed, starts with [http://] or [https://] in any letter case is
    returned unchanged apart from the trimming; every other input that is
    not blank gets [https://] in front of its trimmed form, whether or not
    it carries another scheme; a blank input gives the empty string; and
    [example.com] gives [https://example.com]. *)
Theorem normalizeUrl_idempotent_http_only (raw : jsstring) :
  normalizeUrl (normalizeUrl raw) = normalizeUrl raw /\
  (has_http_scheme (trim raw) = true -> normalizeUrl raw = trim raw) /\
  (trim raw <> [] -> has_http_scheme (trim raw) = false ->
   normalizeUrl raw = lit "https://" ++ trim raw) /\
  (trim raw = [] -> normalizeUrl raw = empty_string) /\
  normalizeUrl (lit "example.com") = lit "https://example.com".
Proof.
  split; [apply normalizeUrl_idem|].
  split; [rewrite <- test_http_scheme_spec; apply normalizeUrl_http|].
  split; [rewrite <- test_http_scheme_spec; apply normalizeUrl_other|].
  split; [apply normalizeUrl_empty|reflexivity].
Qed.

Lemma normalizeUrl_idempotent_http_only_witness :
  (has_http_scheme (trim (lit " HTTP://a.b ")) = true /\
   normalizeUrl (lit " HTTP://a.b ") = lit "HTTP://a.b") /\
  (trim (lit "mailto:a@b.c") <> [] /\
   has_http_scheme (trim (lit "mailto:a@b.c")) = false /\
   normalizeUrl (lit "mailto:a@b.c") = lit "https://mailto:a@b.c") /\
  (trim (lit "  ") = [] /\ normalizeUrl (lit "  ") = empty_string).
Proof.
  split; [|split].
  - split; [reflexivity|].
    apply (proj1 (proj2 (normalizeUrl_idempotent_http_only (lit " HTTP://a.b ")))).
    reflexivity.
  - split; [vm_compute; discriminate|]. split; [reflexivity|].
    apply (proj1 (proj2 (proj2 (normalizeUrl_idempotent_http_only (lit "mailto:a@b.c"))))).
    + vm_compute. discriminate.
    + reflexivity.
  - split; [reflexivity|].
    apply (proj1 (proj2 (proj2 (proj2 (normalizeUrl_idempotent_http_only (lit "  ")))))).
    reflexivity.
Defined.

Local Close Scope N_scope.

(** ** Tasks *)


Lemma NeverThrows_bind {A B : Type} (t : Task A) (g : A -> Task B) :
  NeverThrows t -> (forall a, NeverThrows (g a)) -> NeverThrows (bind t g).
Proof.
  intros Ht Hg. induction Ht; simpl; try (constructor; auto).
  apply Hg.
Qed.

Lemma NeverThrows_call (f : State -> State) : NeverThrows (call f).
Proof. repeat constructor. Qed.

Lemma NeverThrows_run {A : Type} (t : Task A) (s : State) (e : Exn) :
  NeverThrows t -> snd (run t s) <> Uncaught e.
Proof.
  intros Ht. revert s. induction Ht; intros s; simpl; try discriminate.
  apply IHHt.
Qed.

(** ** The state setters *)

Lemma setMessage_message (v : option Message) (s : State) :
  message (setMessage v s) = v.
Proof.
  unfold setMessage, toastEffect, toastCleanup.
  destruct (message s) eqn:Hm, v, (toastTimer s); simpl; try reflexivity;
    try exact Hm.
Qed.

(** [setMessage] touches the message and the timers only. *)
Lemma setMessage_frame (v : option Message) (s : State) :
  title (setMessage v s) = title s /\
  url (setMessage v s) = url s /\
  items (setMessage v s) = items s /\
  loading (setMessage v s) = loading s /\
  submitting (setMessage v s) = submitting s /\
  deletingId (setMessage v s) = deletingId s /\
  mounted (setMessage v s) = mounted s /\
  now (setMessage v s) = now s.
Proof.
  unfold setMessage, toastEffect, toastCleanup.
  destruct (message s), v, (toastTimer s); simpl; repeat split; reflexivity.
Qed.

Lemma setMessage_items (v : option Message) (s : State) :
  items (setMessage v s) = items s.
Proof. apply setMessage_frame. Qed.

Lemma setMessage_loading (v : option Message) (s : State) :
  loading (setMessage v s) = loading s.
Proof. apply setMessage_frame. Qed.

Lemma setMessage_deletingId (v : option Message) (s : State) :
  deletingId (setMessage v s) = deletingId s.
Proof. apply setMessage_frame. Qed.

Lemma setMessage_title (v : option Message) (s : State) :
  title (setMessage v s) = title s.
Proof. apply setMessage_frame. Qed.

Lemma setMessage_url (v : option Message) (s : State) :
  url (setMessage v s) = url s.
Proof. apply setMessage_frame. Qed.

Lemma setMessage_mounted (v : option Message) (s : State) :
  mounted (setMessage v s) = mounted s.
Proof. apply setMessage_frame. Qed.

(** ** The operations *)

Section Properties.

Variable userId : jsstring.
Variable URL_parses : jsstring -> bool.

(** The course of [addBookmark]: the validation, the insert, and what
    the two continuations do with the replies. *)
Lemma addBookmark_run :
  exists (k : Result Bookmark.t -> Task unit)
         (k' : Result (list Bookmark.t) -> Task unit),
    (forall title url s,
       run (addBookmark userId URL_parses title url) s =
       let s0 := setMessage None s in
       if falsy (trim title) then
         (setMessage (Some (mkMessage err (lit "Please enter a title."))) s0,
          Finished tt)
       else if falsy (normalizeUrl url) then
         (setMessage (Some (mkMessage err (lit "Please enter a URL."))) s0,
          Finished tt)
       else if URL_parses (normalizeUrl url) then
         (setSubmitting true s0,
          OnInsert (mkNewRow userId (trim title) (normalizeUrl url)) k)
       else
         (setMessage (Some (mkMessage err (lit "Please enter a valid URL."))) s0,
          Finished tt)) /\
    (forall r s,
       run (k r) s =
       let s1 := setSubmitting false s in
       match error r, data r with
       | Some e, _ =>
           (setMessage (Some (mkMessage err (PostgrestError.message e))) s1,
            Finished tt)
       | None, Some d =>
           (setMessage (Some (mkMessage ok (lit "Bookmark added!")))
              (setUrl empty_string (setTitle empty_string
                 (setItems (fun prev => d :: prev) s1))),
            Finished tt)
       | None, None => (s1, OnSelect k')
       end) /\
    (forall r s,
       run (k' r) s =
       let s1 :=
         match error r with
         | Some e =>
             setMessage (Some (mkMessage err (PostgrestError.message e))) s
         | None => setItems (fun _ => default [] (data r)) s
         end in
       (setMessage (Some (mkMessage ok (lit "Bookmark added!")))
          (setUrl empty_string (setTitle empty_string s1)),
        Finished tt)).
Proof.
  eexists. eexists. split; [|split].
  - intros title url s. unfold addBookmark. simpl.
    destruct (falsy (trim title)); [reflexivity|].
    destruct (falsy (normalizeUrl url)); [reflexivity|].
    unfold new_URL. destruct (URL_parses (normalizeUrl url)); reflexivity.
  - intros r s. simpl. destruct (error r); [reflexivity|].
    destruct (data r); reflexivity.
  - intros r s. simpl. destruct (error r); reflexivity.
Qed.

(** C1. A refresh whose fetch succeeds leaves in [items] exactly the rows
    of its reply ([data ?? []]), whatever [items] held before; this holds
    for the reply applied by the event loop to any parked refresh; and of
    two refreshes in flight at once the one answered last decides
    [items], in either order of the answers. *)
Theorem fetchBookmarks_last_response_wins :
  exists k : Result (list Bookmark.t) -> Task unit,
    (forall s, run fetchBookmarks s = (s, OnSelect k)) /\
    (forall s r, error r = None ->
       exists s', run (k r) s = (s', Finished tt) /\
                  items s' = default [] (data r)) /\
    (forall L n r, pending L !! n = Some (PSelect k) -> error r = None ->
       exists L', step userId URL_parses (Resolve n (RSelect r)) L = Some L' /\
                  items (ui L') = default [] (data r)) /\
    (forall L r1 r2, error r1 = None -> error r2 = None ->
       (exists L',
          steps userId URL_parses [WindowFocus; RealtimeChange;
                 Resolve (nextRequest L) (RSelect r1);
                 Resolve (S (nextRequest L)) (RSelect r2)] L = Some L' /\
          items (ui L') = default [] (data r2)) /\
       (exists L',
          steps userId URL_parses [WindowFocus; RealtimeChange;
                 Resolve (S (nextRequest L)) (RSelect r2);
                 Resolve (nextRequest L) (RSelect r1)] L = Some L' /\
          items (ui L') = default [] (data r1))).
Proof.
  eexists. split; [intros s; reflexivity|].
  split; [|split].
  - intros s r Hr. eexists. simpl. rewrite Hr. split; reflexivity.
  - intros L n r Hn Hr. eexists. simpl. rewrite Hn.
    unfold launch. simpl. rewrite Hr. simpl. split; reflexivity.
  - intros L r1 r2 H1 H2.
    assert (Hne : nextRequest L <> S (nextRequest L)) by lia.
    split; eexists; simpl; unfold launch; simpl.
    + rewrite lookup_insert_ne by lia. rewrite lookup_insert_eq.
      simpl. rewrite H1. simpl.
      rewrite lookup_delete_ne by lia. rewrite lookup_insert_eq.
      simpl. rewrite H2. simpl. split; reflexivity.
    + rewrite lookup_insert_eq. simpl. rewrite H2. simpl.
      rewrite lookup_delete_ne by lia.
      rewrite lookup_insert_ne by lia. rewrite lookup_insert_eq.
      simpl. rewrite H1. simpl. split; reflexivity.
Qed.

(** C2. When the trimmed title is empty, or the trimmed URL is empty, or
    the URL with its scheme supplied does not parse, [addBookmark] ends in
    its first synchronous run, so that no insert is issued, with [items]
    unchanged and an error notice; the notice is the one of the first
    check that fails, in the order title, URL, parse. Run from the event
    loop, the submit parks no request. *)
Theorem addBookmark_rejects_malformed_input (rawTitle rawUrl : jsstring) :
  trim rawTitle = [] \/ trim rawUrl = [] \/ URL_parses (normalizeUrl rawUrl) = false ->
  (forall s, exists s',
     run (addBookmark userId URL_parses rawTitle rawUrl) s = (s', Finished tt) /\
     items s' = items s /\
     message s' =
       Some (mkMessage err
               (if falsy (trim rawTitle) then lit "Please enter a title."
                else if falsy (trim rawUrl) then lit "Please enter a URL."
                else lit "Please enter a valid URL."))) /\
  (forall L, title (ui L) = rawTitle -> url (ui L) = rawUrl ->
     exists L',
       step userId URL_parses Submit L = Some L' /\
       pending L' = pending L /\ nextRequest L' = nextRequest L /\
       items (ui L') = items (ui L)).
Proof.
  intros Hbad.
  destruct addBookmark_run as (k & k' & Hrun & _).
  assert (Hfin : forall s, exists s',
     run (addBookmark userId URL_parses rawTitle rawUrl) s = (s', Finished tt) /\
     items s' = items s /\
     message s' =
       Some (mkMessage err
               (if falsy (trim rawTitle) then lit "Please enter a title."
                else if falsy (trim rawUrl) then lit "Please enter a URL."
                else lit "Please enter a valid URL."))).
  { intros s. rewrite Hrun. cbv zeta. rewrite falsy_normalizeUrl.
    destruct (falsy (trim rawTitle)) eqn:Ht.
    { eexists. split; [reflexivity|].
      rewrite !setMessage_items, setMessage_message. split; reflexivity. }
    destruct (falsy (trim rawUrl)) eqn:Hv.
    { eexists. split; [reflexivity|].
      rewrite !setMessage_items, setMessage_message. split; reflexivity. }
    destruct (URL_parses (normalizeUrl rawUrl)) eqn:Hp.
    { exfalso. destruct Hbad as [H|[H|H]].
      - rewrite H in Ht. discriminate Ht.
      - rewrite H in Hv. discriminate Hv.
      - discriminate H. }
    eexists. split; [reflexivity|].
    rewrite !setMessage_items, setMessage_message. split; reflexivity. }
  split; [exact Hfin|].
  intros L Ht Hv. unfold step, launch. rewrite Ht, Hv.
  destruct (Hfin (ui L)) as (s' & Hs' & Hitems & _). rewrite Hs'.
  eexists. split; [reflexivity|]. simpl. repeat split. exact Hitems.
Qed.

(** The course of [deleteBookmark]. *)
Lemma deleteBookmark_run (id : jsstring) :
  exists k : Result unit -> Task unit,
    (forall s,
       run (deleteBookmark id) s =
       (setDeletingId (Some id) (setMessage None s), OnDelete id k)) /\
    (forall r s,
       run (k r) s =
       let s1 := setDeletingId None s in
       match error r with
       | Some e =>
           (setMessage (Some (mkMessage err (PostgrestError.message e))) s1,
            Finished tt)
       | None =>
           (setMessage (Some (mkMessage ok (lit "Deleted.")))
              (setItems (fun prev => filter (fun b => Bookmark.id b <> id) prev) s1),
            Finished tt)
       end).
Proof.
  eexists. split; [intros s; reflexivity|].
  intros r s. simpl. destruct (error r); reflexivity.
Qed.

Lemma filter_id_all (id : jsstring) (l : list Bookmark.t) :
  (forall b, b ∈ l -> Bookmark.id b <> id) ->
  filter (fun b => Bookmark.id b <> id) l = l.
Proof.
  induction l as [|b l IH]; intros H; [reflexivity|].
  rewrite filter_cons_True by (apply H; left).
  rewrite IH; [reflexivity|]. intros b' Hb'. apply H. right. exact Hb'.
Qed.

(** C3. [deleteBookmark id] marks [id] as being deleted and issues the
    delete. When the reply is a success, [items] becomes what it was when
    the reply arrived with the records of that identifier filtered out, so
    none of them remains, and [deletingId] is cleared. When the reply is an
    error, [items] is unchanged, [deletingId] is cleared and the notice is
    the error's message. From [A(id=1), B(id=2)] a successful delete of
    ["1"] leaves [B(id=2)], and one of ["2"] leaves [A(id=1)]. *)
Theorem deleteBookmark_removes_by_id :
  (forall id, exists k : Result unit -> Task unit,
     (forall s, exists s1,
        run (deleteBookmark id) s = (s1, OnDelete id k) /\
        deletingId s1 = Some id /\ items s1 = items s) /\
     (forall s r, error r = None ->
        exists s',
          run (k r) s = (s', Finished tt) /\
          items s' = filter (fun b => Bookmark.id b <> id) (items s) /\
          (forall b, b ∈ items s' -> Bookmark.id b <> id) /\
          deletingId s' = None) /\
     (forall s r e, error r = Some e ->
        exists s',
          run (k r) s = (s', Finished tt) /\
          items s' = items s /\
          deletingId s' = None /\
          message s' = Some (mkMessage err (PostgrestError.message e)))) /\
  (forall L, items (ui L) = [bookmarkA; bookmarkB] ->
     (exists L',
        steps userId URL_parses
          [ClickDelete (lit "1");
           Resolve (nextRequest L) (RDelete (mkResult None None))] L = Some L' /\
        items (ui L') = [bookmarkB] /\ deletingId (ui L') = None) /\
     (exists L',
        steps userId URL_parses
          [ClickDelete (lit "2");
           Resolve (nextRequest L) (RDelete (mkResult None None))] L = Some L' /\
        items (ui L') = [bookmarkA] /\ deletingId (ui L') = None)).
Proof.
  split.
  - intros id. destruct (deleteBookmark_run id) as (k & Hstart & Hk).
    exists k. split; [|split].
    + intros s. eexists. split; [apply Hstart|].
      simpl. split; [reflexivity|apply setMessage_items].
    + intros s r Hr. eexists. split; [rewrite Hk, Hr; reflexivity|]. simpl.
      rewrite setMessage_items, setMessage_deletingId. simpl.
      split; [reflexivity|]. split; [|reflexivity].
      intros b Hb. apply list_elem_of_filter in Hb. apply Hb.
    + intros s r e Hr. eexists. split; [rewrite Hk, Hr; reflexivity|]. simpl.
      rewrite setMessage_items, setMessage_deletingId, setMessage_message.
      repeat split.
  - intros L HL. split; eexists; simpl; unfold launch; simpl;
      rewrite lookup_insert_eq; simpl; (split; [reflexivity|]); simpl;
      rewrite setMessage_items, setMessage_deletingId; simpl;
      rewrite setMessage_items, HL;
      (split; [vm_compute; reflexivity|reflexivity]).
Qed.

(** C9. When no record of [items] has the identifier, a successful
    delete reply leaves [items] as it was and still sets the notice
    "Deleted."; the absent identifier is accepted. *)
Theorem deleteBookmark_absent_id_is_accepted
    (id : jsstring) (s : State) (r : Result unit) :
  (forall b, b ∈ items s -> Bookmark.id b <> id) ->
  error r = None ->
  exists (k : Result unit -> Task unit) (s' : State),
    (forall s0, exists s1, run (deleteBookmark id) s0 = (s1, OnDelete id k)) /\
    run (k r) s = (s', Finished tt) /\
    items s' = items s /\
    message s' = Some (mkMessage ok (lit "Deleted.")).
Proof.
  intros Habsent Hr. destruct (deleteBookmark_run id) as (k & Hstart & Hk).
  exists k. eexists. split; [|split; [rewrite Hk, Hr; reflexivity|]].
  - intros s0. eexists. apply Hstart.
  - simpl. rewrite setMessage_items, setMessage_message. simpl.
    split; [|reflexivity]. apply filter_id_all. exact Habsent.
Qed.

(** ** The toast timer *)

(** After the clean-up of the toast effect no timer is left. *)
Lemma toastCleanup_clears (s : State) :
  toast_inv s ->
  timers (toastCleanup s) = [] /\ toastTimer (toastCleanup s) = None /\
  now (toastCleanup s) = now s /\ nextTimer (toastCleanup s) = nextTimer s.
Proof.
  unfold toast_inv, toastCleanup. intros H.
  destruct (message s).
  - destruct H as (t & due & Ht & Htt & _). rewrite Htt. simpl.
    rewrite Ht. simpl. rewrite Nat.eqb_refl. simpl. repeat split.
  - destruct H as [Ht Htt]. rewrite Htt. repeat split; assumption.
Qed.

(** A new notice replaces whatever timer was queued by its own, due
    2500 ms from now. *)
Lemma setMessage_schedules (m : Message) (s : State) :
  toast_inv s ->
  message (setMessage (Some m) s) = Some m /\
  timers (setMessage (Some m) s) = [(nextTimer s, (now s + 2500)%Z)] /\
  toastTimer (setMessage (Some m) s) = Some (nextTimer s) /\
  now (setMessage (Some m) s) = now s.
Proof.
  intros H. destruct (toastCleanup_clears s H) as (Ht & Htt & Hnow & Hnext).
  assert (E : setMessage (Some m) s
              = toastEffect (write_message (Some m) (toastCleanup s)))
    by (unfold setMessage; destruct (message s); reflexivity).
  rewrite E. unfold toastEffect. simpl. rewrite Ht, Hnow, Hnext.
  repeat split.
Qed.

Lemma setMessage_clears (s : State) :
  toast_inv s ->
  message (setMessage None s) = None /\
  timers (setMessage None s) = [] /\
  toastTimer (setMessage None s) = None /\
  now (setMessage None s) = now s.
Proof.
  intros H. destruct (toastCleanup_clears s H) as (Ht & Htt & Hnow & Hnext).
  unfold setMessage. destruct (message s) eqn:Hm.
  - unfold toastEffect. simpl. repeat split; assumption.
  - unfold toast_inv in H. rewrite Hm in H. destruct H as [H1 H2].
    repeat split; assumption.
Qed.

Lemma setMessage_toast_inv (v : option Message) (s : State) :
  toast_inv s -> toast_inv (setMessage v s).
Proof.
  intros H. destruct v as [m|].
  - destruct (setMessage_schedules m s H) as (Hm & Ht & Htt & Hnow).
    unfold toast_inv. rewrite Hm. exists (nextTimer s), (now s + 2500)%Z.
    rewrite Ht, Htt, Hnow. repeat split; lia.
  - destruct (setMessage_clears s H) as (Hm & Ht & Htt & _).
    unfold toast_inv. rewrite Hm. split; assumption.
Qed.

(** Before it is due the timer does not fire; once it is due the notice
    is cleared and the queue is empty again. *)
Lemma elapse_toast (dt : Z) (s : State) :
  (0 <= dt)%Z -> toast_inv s ->
  toast_inv (elapse dt s) /\
  (forall t due, timers s = [(t, due)] -> (now s + dt < due)%Z ->
     message (elapse dt s) = message s) /\
  (forall t due, timers s = [(t, due)] -> (due <= now s + dt)%Z ->
     message (elapse dt s) = None) /\
  (timers s = [] -> message (elapse dt s) = message s).
Proof.
  intros Hdt H. unfold toast_inv in H.
  destruct s as [ti ur it lo su de me mo no tm nt tt]. simpl in H.
  destruct me as [m|].
  - destruct H as (t & due & Ht & Htt & Hdue). subst tm tt.
    unfold elapse, advance. simpl.
    destruct (due <=? no + dt)%Z eqn:Hcmp.
    + apply Z.leb_le in Hcmp.
      unfold fire, setMessage, toastCleanup, toastEffect, clearTimeout.
      simpl. rewrite Nat.eqb_refl. simpl.
      split; [unfold toast_inv; simpl; split; reflexivity|].
      split; [|split; [reflexivity|intros E; discriminate E]].
      intros t' due' E Hlt. injection E as -> ->. lia.
    + apply Z.leb_gt in Hcmp. simpl.
      split; [unfold toast_inv; simpl; exists t, due; repeat split; lia|].
      split; [reflexivity|].
      split; [|intros E; discriminate E].
      intros t' due' E Hle. injection E as -> ->. lia.
  - destruct H as [Ht Htt]. subst tm tt.
    unfold elapse, advance. simpl.
    split; [unfold toast_inv; simpl; split; reflexivity|].
    split; [reflexivity|].
    split; [intros t due E; discriminate E|reflexivity].
Qed.

(** ** Every operation keeps the loop in order *)

(** Whatever the body throws, the handler takes it. *)
Lemma NeverThrows_try_catch {A : Type} (t : Task A) (h : Exn -> Task A) :
  (forall e, NeverThrows (h e)) -> NeverThrows (try_catch t h).
Proof.
  intros Hh. induction t; simpl; try (constructor; auto).
  apply Hh.
Qed.

Ltac keeps_tac :=
  let s := fresh "s" in
  let H := fresh "H" in
  intros s; split;
  [ intros H;
    first [ apply setMessage_toast_inv; exact H
          | exact H
          | destruct (readMounted _ s); exact H ]
  | first [ apply setMessage_mounted
          | reflexivity
          | destruct (readMounted _ s); reflexivity ] ].

Ltac every_tac :=
  repeat first
    [ apply Every_Ret
    | apply Every_Throw
    | apply Every_Upd; [keeps_tac|]
    | apply Every_AwaitSelect; intros ?
    | apply Every_AwaitInsert; intros ?
    | apply Every_AwaitDelete; intros ?
    | progress simpl
    | match goal with
      | |- context [match ?x with _ => _ end] => destruct x
      end ].

Ltac never_tac :=
  repeat first
    [ apply NT_Ret
    | apply NT_Upd
    | apply NT_AwaitSelect; intros ?
    | apply NT_AwaitInsert; intros ?
    | apply NT_AwaitDelete; intros ?
    | progress simpl
    | match goal with
      | |- context [match ?x with _ => _ end] => destruct x
      end ].

Lemma fetchBookmarks_safe : Safe fetchBookmarks.
Proof. split; unfold fetchBookmarks; [every_tac|never_tac]. Qed.

Lemma initialLoad_safe (cell : nat) : Safe (initialLoad cell).
Proof. split; unfold initialLoad, fetchBookmarks; [every_tac|never_tac]. Qed.

Lemma deleteBookmark_safe (id : jsstring) : Safe (deleteBookmark id).
Proof. split; unfold deleteBookmark; [every_tac|never_tac]. Qed.

Lemma addBookmark_NeverThrows (rawTitle rawUrl : jsstring) :
  NeverThrows (addBookmark userId URL_parses rawTitle rawUrl).
Proof.
  unfold addBookmark.
  apply NeverThrows_bind; [apply NeverThrows_call|]. intros _. cbv zeta.
  destruct (falsy (trim rawTitle)); [apply NeverThrows_call|].
  destruct (falsy (normalizeUrl rawUrl)); [apply NeverThrows_call|].
  apply NeverThrows_bind.
  - apply NeverThrows_try_catch. intros e. never_tac.
  - intros [|]; unfold fetchBookmarks; never_tac.
Qed.

Lemma addBookmark_safe (rawTitle rawUrl : jsstring) :
  Safe (addBookmark userId URL_parses rawTitle rawUrl).
Proof.
  split; [|apply addBookmark_NeverThrows].
  unfold addBookmark, new_URL, fetchBookmarks. every_tac.
Qed.

Lemma Safe_run (t : Task unit) (s : State) :
  Safe t ->
  (toast_inv s -> toast_inv (fst (run t s))) /\
  mounted (fst (run t s)) = mounted s /\
  match snd (run t s) with
  | Finished _ => True
  | Uncaught _ => False
  | OnSelect k => forall r, Safe (k r)
  | OnInsert _ k => forall r, Safe (k r)
  | OnDelete _ k => forall r, Safe (k r)
  end.
Proof.
  intros [HE HN]. revert s.
  induction t as [a|e|f k IH|k IH|row k IH|i k IH]; intros s; simpl.
  - split; [intros Hs; exact Hs|]. split; [reflexivity|exact I].
  - inversion HN.
  - inversion HE as [| |f0 k0 Hf Hk| | |]; subst.
    inversion HN; subst.
    destruct (IH Hk ltac:(assumption) (f s)) as (Ht & Hm & Ho).
    destruct (Hf s) as [Hft Hfm].
    split; [intros Hs; apply Ht, Hft, Hs|].
    split; [rewrite Hm; exact Hfm|exact Ho].
  - inversion HE; subst. inversion HN; subst.
    split; [intros Hs; exact Hs|]. split; [reflexivity|].
    intros r. split; auto.
  - inversion HE; subst. inversion HN; subst.
    split; [intros Hs; exact Hs|]. split; [reflexivity|].
    intros r. split; auto.
  - inversion HE; subst. inversion HN; subst.
    split; [intros Hs; exact Hs|]. split; [reflexivity|].
    intros r. split; auto.
Qed.

Lemma suspend_inv (p : Pending) (s : State) (L : Loop) :
  toast_inv s -> Pending_safe p -> loop_inv L -> loop_inv (suspend p s L).
Proof.
  intros Hs Hp (_ & Hu & Hpend). split; [exact Hs|]. split; [exact Hu|].
  intros n q. simpl. intros Hq.
  destruct (decide (nextRequest L = n)) as [E|Hne].
  - rewrite <- E, lookup_insert_eq in Hq. injection Hq as <-. exact Hp.
  - rewrite lookup_insert_ne in Hq by exact Hne. eapply Hpend. exact Hq.
Qed.

Lemma launch_inv (t : Task unit) (L : Loop) :
  Safe t -> loop_inv L -> loop_inv (launch t L).
Proof.
  intros Ht HL. pose proof HL as (Hui & Hu & Hpend).
  destruct (Safe_run t (ui L) Ht) as (Hs & _ & Ho). specialize (Hs Hui).
  unfold launch. destruct (run t (ui L)) as [s o]. simpl in Hs, Ho.
  destruct o as [a|e|k|row k|i k].
  - split; [exact Hs|]. split; [exact Hu|exact Hpend].
  - contradiction.
  - apply suspend_inv; assumption.
  - apply suspend_inv; assumption.
  - apply suspend_inv; assumption.
Qed.

Lemma with_ui_inv (f : State -> State) (L : Loop) :
  (toast_inv (ui L) -> toast_inv (f (ui L))) ->
  loop_inv L -> loop_inv (with_ui f L).
Proof.
  intros Hf (Hui & Hu & Hpend). split; [apply Hf; exact Hui|].
  split; [exact Hu|exact Hpend].
Qed.

Lemma step_inv (e : Event) (L L' : Loop) :
  loop_inv L -> step userId URL_parses e L = Some L' -> loop_inv L'.
Proof.
  intros HL Hstep. destruct e as [|cell|v|v| |i| |hidden| |n r|dt]; simpl in Hstep.
  - injection Hstep as <-. apply launch_inv; [apply initialLoad_safe|].
    apply with_ui_inv; [intros H; exact H|exact HL].
  - injection Hstep as <-. apply with_ui_inv; [intros H; exact H|exact HL].
  - injection Hstep as <-. apply with_ui_inv; [intros H; exact H|exact HL].
  - injection Hstep as <-. apply with_ui_inv; [intros H; exact H|exact HL].
  - injection Hstep as <-. apply launch_inv; [apply addBookmark_safe|exact HL].
  - injection Hstep as <-. apply launch_inv; [apply deleteBookmark_safe|exact HL].
  - injection Hstep as <-. apply launch_inv; [apply fetchBookmarks_safe|exact HL].
  - destruct hidden; injection Hstep as <-; [exact HL|].
    apply launch_inv; [apply fetchBookmarks_safe|exact HL].
  - injection Hstep as <-. apply launch_inv; [apply fetchBookmarks_safe|exact HL].
  - destruct HL as (Hui & Hu & Hpend).
    assert (HL0 : loop_inv (mkLoop (ui L) (delete n (pending L))
                              (nextRequest L) (unhandled L))).
    { split; [exact Hui|]. split; [exact Hu|]. intros m q. simpl. intros Hq.
      apply lookup_delete_Some in Hq. eapply Hpend. apply Hq. }
    destruct (pending L !! n) as [p|] eqn:Hp; [|discriminate Hstep].
    apply Hpend in Hp.
    destruct p as [k|row k|i k], r as [res|res|res]; try discriminate Hstep;
      injection Hstep as <-; apply launch_inv; try exact HL0; apply Hp.
  - destruct (dt <? 0)%Z eqn:Hdt; [discriminate Hstep|].
    injection Hstep as <-. apply Z.ltb_ge in Hdt.
    apply with_ui_inv; [|exact HL]. intros H. apply elapse_toast; assumption.
Qed.

Lemma initialLoop_inv (t0 : Z) : loop_inv (initialLoop t0).
Proof.
  split; [split; reflexivity|]. split; [reflexivity|].
  intros n p Hp. simpl in Hp. rewrite lookup_empty in Hp. discriminate Hp.
Qed.

Lemma steps_inv (es : list Event) (L L' : Loop) :
  loop_inv L -> steps userId URL_parses es L = Some L' -> loop_inv L'.
Proof.
  revert L. induction es as [|e es IH]; intros L HL Hsteps; simpl in Hsteps.
  - injection Hsteps as <-. exact HL.
  - destruct (step userId URL_parses e L) as [L1|] eqn:Hstep; [|discriminate Hsteps].
    eapply IH; [|exact Hsteps]. eapply step_inv; eassumption.
Qed.

(** ** What the other events leave alone *)

Lemma fire_mounted (t : nat) (s : State) : mounted (fire t s) = mounted s.
Proof.
  unfold fire. destruct (existsb _ _); [|reflexivity].
  rewrite setMessage_mounted. reflexivity.
Qed.

Lemma elapse_mounted (dt : Z) (s : State) : mounted (elapse dt s) = mounted s.
Proof.
  unfold elapse.
  generalize (List.filter (fun p : nat * Z => (snd p <=? now (advance dt s))%Z)
                (timers (advance dt s))).
  intros l. change (mounted s) with (mounted (advance dt s)).
  generalize (advance dt s). clear s.
  induction l as [|p l IH]; intros s; simpl; [reflexivity|].
  rewrite IH. apply fire_mounted.
Qed.

Lemma launch_mounted (t : Task unit) (L : Loop) :
  Safe t -> mounted (ui (launch t L)) = mounted (ui L).
Proof.
  intros Ht. destruct (Safe_run t (ui L) Ht) as (_ & Hm & _).
  unfold launch. destruct (run t (ui L)) as [s o]. simpl in Hm.
  destruct o; exact Hm.
Qed.

(** A parked request stays parked while a task is started. *)
Lemma launch_pending (t : Task unit) (L : Loop) (n : nat) (p : Pending) :
  n < nextRequest L -> pending L !! n = Some p ->
  pending (launch t L) !! n = Some p /\ n < nextRequest (launch t L).
Proof.
  intros Hn Hp. unfold launch. destruct (run t (ui L)) as [s o].
  destruct o; simpl; try (split; [exact Hp|exact Hn]);
    (split; [rewrite lookup_insert_ne by lia; exact Hp|lia]).
Qed.

(** The [mounted] variable of a run of the effect stays true under
    every event but the clean-up of that run. *)
Lemma step_mounted (e : Event) (L L' : Loop) (cell : nat) :
  loop_inv L -> step userId URL_parses e L = Some L' ->
  e <> EffectCleanup cell ->
  readMounted cell (ui L) = true -> readMounted cell (ui L') = true.
Proof.
  intros HL Hstep He Hm. unfold readMounted in *.
  destruct e as [|cell'|v|v| |i| |hidden| |n r|dt]; simpl in Hstep.
  - injection Hstep as <-.
    rewrite launch_mounted by apply initialLoad_safe. simpl.
    destruct (mounted (ui L) !! cell) as [b|] eqn:Hc; [|discriminate Hm].
    rewrite (lookup_app_l_Some _ _ _ _ Hc). exact Hm.
  - injection Hstep as <-. simpl.
    rewrite list_lookup_insert_ne by congruence. exact Hm.
  - injection Hstep as <-. exact Hm.
  - injection Hstep as <-. exact Hm.
  - injection Hstep as <-.
    rewrite launch_mounted by apply addBookmark_safe. exact Hm.
  - injection Hstep as <-.
    rewrite launch_mounted by apply deleteBookmark_safe. exact Hm.
  - injection Hstep as <-.
    rewrite launch_mounted by apply fetchBookmarks_safe. exact Hm.
  - destruct hidden; injection Hstep as <-; [exact Hm|].
    rewrite launch_mounted by apply fetchBookmarks_safe. exact Hm.
  - injection Hstep as <-.
    rewrite launch_mounted by apply fetchBookmarks_safe. exact Hm.
  - destruct HL as (_ & _ & Hpend).
    destruct (pending L !! n) as [p|] eqn:Hp; [|discriminate Hstep].
    apply Hpend in Hp.
    destruct p as [k|row k|i k], r as [res|res|res]; try discriminate Hstep;
      injection Hstep as <-; rewrite launch_mounted by apply Hp; exact Hm.
  - destruct (dt <? 0)%Z; [discriminate Hstep|]. injection Hstep as <-.
    simpl. rewrite elapse_mounted. exact Hm.
Qed.

(** A parked request stays parked under every event but its own reply. *)
Lemma step_pending (e : Event) (L L' : Loop) (n : nat) (p : Pending) :
  step userId URL_parses e L = Some L' ->
  (forall r, e <> Resolve n r) ->
  n < nextRequest L -> pending L !! n = Some p ->
  pending L' !! n = Some p /\ n < nextRequest L'.
Proof.
  intros Hstep He Hn Hp.
  destruct e as [|cell'|v|v| |i| |hidden| |m r|dt]; simpl in Hstep;
    try (injection Hstep as <-; first
           [ apply launch_pending; assumption
           | split; assumption ]).
  - destruct hidden; injection Hstep as <-; [split; assumption|].
    apply launch_pending; assumption.
  - assert (Hmn : m <> n) by (intros ->; exact (He r eq_refl)).
    destruct (pending L !! m) as [q|]; [|discriminate Hstep].
    destruct q as [k|row k|i k], r as [res|res|res]; try discriminate Hstep;
      injection Hstep as <-; apply launch_pending; simpl;
      try assumption; rewrite lookup_delete_ne by exact Hmn; exact Hp.
  - destruct (dt <? 0)%Z; [discriminate Hstep|]. injection Hstep as <-.
    split; assumption.
Qed.

Lemma steps_keep_run (es : list Event) (L L' : Loop) (cell n : nat) (p : Pending) :
  loop_inv L ->
  Forall (fun e => e <> EffectCleanup cell /\ forall r, e <> Resolve n r) es ->
  steps userId URL_parses es L = Some L' ->
  readMounted cell (ui L) = true ->
  n < nextRequest L -> pending L !! n = Some p ->
  readMounted cell (ui L') = true /\ pending L' !! n = Some p.
Proof.
  revert L. induction es as [|e es IH]; intros L HL Hes Hsteps Hm Hn Hp;
    simpl in Hsteps.
  - injection Hsteps as <-. split; assumption.
  - destruct (step userId URL_parses e L) as [L1|] eqn:Hstep;
      [|discriminate Hsteps].
    apply Forall_cons in Hes. destruct Hes as [[Hc Hr] Hes].
    destruct (step_pending e L L1 n p Hstep Hr Hn Hp) as [Hp1 Hn1].
    apply (IH L1); try assumption.
    + eapply step_inv; eassumption.
    + eapply step_mounted; eassumption.
Qed.

(** ** The remaining operations *)

(** A well-formed input passes the three checks and the insert is
    issued, with the trimmed title and the normalised URL; then the two
    continuations of [addBookmark_run] take over. *)
Lemma addBookmark_accepts :
  exists (k : Result Bookmark.t -> Task unit)
         (k' : Result (list Bookmark.t) -> Task unit),
    (forall rawTitle rawUrl s,
       trim rawTitle <> [] -> trim rawUrl <> [] ->
       URL_parses (normalizeUrl rawUrl) = true ->
       run (addBookmark userId URL_parses rawTitle rawUrl) s =
       (setSubmitting true (setMessage None s),
        OnInsert (mkNewRow userId (trim rawTitle) (normalizeUrl rawUrl)) k)) /\
    (forall r s,
       run (k r) s =
       let s1 := setSubmitting false s in
       match error r, data r with
       | Some e, _ =>
           (setMessage (Some (mkMessage err (PostgrestError.message e))) s1,
            Finished tt)
       | None, Some d =>
           (setMessage (Some (mkMessage ok (lit "Bookmark added!")))
              (setUrl empty_string (setTitle empty_string
                 (setItems (fun prev => d :: prev) s1))),
            Finished tt)
       | None, None => (s1, OnSelect k')
       end) /\
    (forall r s,
       run (k' r) s =
       let s1 :=
         match error r with
         | Some e =>
             setMessage (Some (mkMessage err (PostgrestError.message e))) s
         | None => setItems (fun _ => default [] (data r)) s
         end in
       (setMessage (Some (mkMessage ok (lit "Bookmark added!")))
          (setUrl empty_string (setTitle empty_string s1)),
        Finished tt)).
Proof.
  destruct addBookmark_run as (k & k' & Hrun & Hk & Hk').
  exists k, k'. split; [|split; assumption].
  intros rawTitle rawUrl s Ht Hu Hp. rewrite Hrun. cbv zeta.
  rewrite falsy_normalizeUrl, Hp.
  destruct (trim rawTitle); [contradiction Ht; reflexivity|].
  destruct (trim rawUrl); [contradiction Hu; reflexivity|]. reflexivity.
Qed.

(** C4, as amended. For a well-formed title and URL [addBookmark] issues
    the insert and leaves [items] as it is until the reply; when the reply
    carries the inserted record, the record is put at the head of [items]
    as it stands when the reply arrives; it is then the only record of its
    identifier provided none was there at that moment. *)
Theorem addBookmark_prepends_on_acknowledgment (rawTitle rawUrl : jsstring) :
  trim rawTitle <> [] -> trim rawUrl <> [] ->
  URL_parses (normalizeUrl rawUrl) = true ->
  exists k : Result Bookmark.t -> Task unit,
    (forall s, exists s1,
       run (addBookmark userId URL_parses rawTitle rawUrl) s =
       (s1, OnInsert (mkNewRow userId (trim rawTitle) (normalizeUrl rawUrl)) k) /\
       items s1 = items s) /\
    (forall s r b, error r = None -> data r = Some b ->
       exists s',
         run (k r) s = (s', Finished tt) /\
         items s' = b :: items s /\
         (with_id (Bookmark.id b) (items s) = [] ->
          with_id (Bookmark.id b) (items s') = [b])).
Proof.
  intros Ht Hu Hp. destruct addBookmark_accepts as (k & k' & Hrun & Hk & _).
  exists k. split.
  - intros s. eexists. split; [apply Hrun; assumption|].
    simpl. apply setMessage_items.
  - intros s r b Hr Hd. eexists. split; [rewrite Hk, Hr, Hd; reflexivity|].
    simpl. rewrite setMessage_items. simpl. split; [reflexivity|].
    intros Hnone. unfold with_id in *.
    rewrite filter_cons_True by reflexivity. rewrite Hnone. reflexivity.
Qed.

(** A malformed input ends [addBookmark] at once with an error notice. *)
Lemma addBookmark_invalid (rawTitle rawUrl : jsstring) (s : State) :
  trim rawTitle = [] \/ trim rawUrl = [] \/
  URL_parses (normalizeUrl rawUrl) = false ->
  exists s' txt,
    run (addBookmark userId URL_parses rawTitle rawUrl) s = (s', Finished tt) /\
    items s' = items s /\
    message s' = Some (mkMessage err txt).
Proof.
  intros Hbad. destruct addBookmark_run as (k & k' & Hrun & _).
  rewrite Hrun. cbv zeta. rewrite falsy_normalizeUrl.
  destruct (falsy (trim rawTitle)) eqn:Ht.
  { eexists. eexists. split; [reflexivity|].
    rewrite !setMessage_items, setMessage_message. split; reflexivity. }
  destruct (falsy (trim rawUrl)) eqn:Hu.
  { eexists. eexists. split; [reflexivity|].
    rewrite !setMessage_items, setMessage_message. split; reflexivity. }
  destruct (URL_parses (normalizeUrl rawUrl)) eqn:Hp.
  { exfalso. destruct Hbad as [H|[H|H]].
    - rewrite H in Ht. discriminate Ht.
    - rewrite H in Hu. discriminate Hu.
    - discriminate H. }
  eexists. eexists. split; [reflexivity|].
  rewrite !setMessage_items, setMessage_message. split; reflexivity.
Qed.

(** C6, as amended. When the Data Store rejects the insert of a
    well-formed input, the notice is an error notice with the store's
    message as it came and [items] is unchanged; when it rejects a delete,
    likewise; and a malformed input ends [addBookmark] with an error
    notice and [items] unchanged. No path of [addBookmark] or
    [deleteBookmark], whatever the input and the replies, ends in an
    escaping exception: the [TypeError] of [new URL] is caught, and the
    store's errors arrive as values. In every state the event loop can
    reach no exception is unhandled. *)
Theorem store_errors_become_notices :
  (forall rawTitle rawUrl,
     trim rawTitle <> [] -> trim rawUrl <> [] ->
     URL_parses (normalizeUrl rawUrl) = true ->
     exists k : Result Bookmark.t -> Task unit,
       (forall s, exists s1,
          run (addBookmark userId URL_parses rawTitle rawUrl) s =
          (s1, OnInsert (mkNewRow userId (trim rawTitle) (normalizeUrl rawUrl)) k)) /\
       (forall s r e, error r = Some e ->
          exists s',
            run (k r) s = (s', Finished tt) /\
            items s' = items s /\
            message s' = Some (mkMessage err (PostgrestError.message e)))) /\
  (forall rawTitle rawUrl,
     NeverThrows (addBookmark userId URL_parses rawTitle rawUrl)) /\
  (forall id, NeverThrows (deleteBookmark id)) /\
  (forall rawTitle rawUrl s e,
     snd (run (addBookmark userId URL_parses rawTitle rawUrl) s) <> Uncaught e) /\
  (forall t0 es L,
     steps userId URL_parses es (initialLoop t0) = Some L -> unhandled L = []) /\
  (forall id, exists k : Result unit -> Task unit,
     (forall s, exists s1, run (deleteBookmark id) s = (s1, OnDelete id k)) /\
     (forall s r e, error r = Some e ->
        exists s',
          run (k r) s = (s', Finished tt) /\
          items s' = items s /\
          message s' = Some (mkMessage err (PostgrestError.message e)))) /\
  (forall rawTitle rawUrl s,
     trim rawTitle = [] \/ trim rawUrl = [] \/
     URL_parses (normalizeUrl rawUrl) = false ->
     exists s' txt,
       run (addBookmark userId URL_parses rawTitle rawUrl) s = (s', Finished tt) /\
       items s' = items s /\
       message s' = Some (mkMessage err txt)).
Proof.
  split; [|split; [|split; [|split; [|split; [|split]]]]].
  - intros rawTitle rawUrl Ht Hu Hp.
    destruct addBookmark_accepts as (k & k' & Hrun & Hk & _).
    exists k. split.
    + intros s. eexists. apply Hrun; assumption.
    + intros s r e Hr. eexists. split; [rewrite Hk, Hr; reflexivity|]. simpl.
      rewrite setMessage_items, setMessage_message. split; reflexivity.
  - apply addBookmark_NeverThrows.
  - intros id. apply deleteBookmark_safe.
  - intros rawTitle rawUrl s e. apply NeverThrows_run.
    apply addBookmark_NeverThrows.
  - intros t0 es L Hsteps.
    apply (steps_inv es (initialLoop t0) L (initialLoop_inv t0) Hsteps).
  - intros id. destruct (deleteBookmark_run id) as (k & Hstart & Hk).
    exists k. split.
    + intros s. eexists. apply Hstart.
    + intros s r e Hr. eexists. split; [rewrite Hk, Hr; reflexivity|]. simpl.
      rewrite setMessage_items, setMessage_message. split; reflexivity.
  - intros rawTitle rawUrl s Hbad. apply addBookmark_invalid. exact Hbad.
Qed.

(** The course of the initial load. *)
Lemma initialLoad_run (cell : nat) :
  exists k : Result (list Bookmark.t) -> Task unit,
    (forall s, run (initialLoad cell) s = (setLoading true s, OnSelect k)) /\
    (forall r s,
       run (k r) s =
       let s1 :=
         match error r with
         | Some e =>
             setMessage (Some (mkMessage err (PostgrestError.message e))) s
         | None => setItems (fun _ => default [] (data r)) s
         end in
       (if readMounted cell s1 then setLoading false s1 else s1, Finished tt)).
Proof.
  eexists. split; [intros s; reflexivity|].
  intros r s. simpl. destruct (error r); reflexivity.
Qed.

Lemma readMounted_setMessage (cell : nat) (v : option Message) (s : State) :
  readMounted cell (setMessage v s) = readMounted cell s.
Proof. unfold readMounted. rewrite setMessage_mounted. reflexivity. Qed.

(** C7, as amended. The initial load raises [loading] and fetches. When the fetch
    completes while the run of the effect that started it is still
    mounted, [loading] is set to false, on success and on failure alike;
    on failure the notice is the error's message and [items] is unchanged,
    on success [items] is the reply. From any state of the loop, a run of the
    effect followed by the reply to its fetch ends with [loading] false;
    and so it does from any state the loop can reach, whatever other events
    come between the two, as long as that run is not cleaned up. *)
Theorem initialLoad_clears_loading :
  (forall cell, exists k : Result (list Bookmark.t) -> Task unit,
     (forall s, exists s1,
        run (initialLoad cell) s = (s1, OnSelect k) /\
        loading s1 = true /\ items s1 = items s) /\
     (forall s r, readMounted cell s = true ->
        exists s',
          run (k r) s = (s', Finished tt) /\
          loading s' = false /\
          match error r with
          | Some e =>
              message s' = Some (mkMessage err (PostgrestError.message e)) /\
              items s' = items s
          | None => items s' = default [] (data r)
          end)) /\
  (forall L r, exists L',
     steps userId URL_parses
       [EffectRun; Resolve (nextRequest L) (RSelect r)] L = Some L' /\
     loading (ui L') = false /\
     match error r with
     | Some e =>
         message (ui L') = Some (mkMessage err (PostgrestError.message e)) /\
         items (ui L') = items (ui L)
     | None => items (ui L') = default [] (data r)
     end) /\
  (forall t0 es0 L es L1 r,
     steps userId URL_parses es0 (initialLoop t0) = Some L ->
     Forall (fun e => e <> EffectCleanup (length (mounted (ui L))) /\
                      forall r', e <> Resolve (nextRequest L) r') es ->
     steps userId URL_parses (EffectRun :: es) L = Some L1 ->
     exists L2,
       step userId URL_parses (Resolve (nextRequest L) (RSelect r)) L1 = Some L2 /\
       loading (ui L2) = false /\
       match error r with
       | Some e =>
           message (ui L2) = Some (mkMessage err (PostgrestError.message e)) /\
           items (ui L2) = items (ui L1)
       | None => items (ui L2) = default [] (data r)
       end).
Proof.
  split; [|split].
  - intros cell. destruct (initialLoad_run cell) as (k & Hstart & Hk).
    exists k. split.
    + intros s. eexists. split; [apply Hstart|]. split; reflexivity.
    + intros s r Hm. eexists. split; [rewrite Hk; reflexivity|].
      destruct (error r) as [e|]; simpl.
      * rewrite readMounted_setMessage, Hm. simpl.
        rewrite setMessage_message, setMessage_items. repeat split.
      * change (readMounted cell (setItems (fun _ => default [] (data r)) s))
          with (readMounted cell s).
        rewrite Hm. split; reflexivity.
  - intros L r.
    assert (Hm : forall s, mounted s = mounted (ui L) ++ [true] ->
                 readMounted (length (mounted (ui L))) s = true).
    { intros s Hs. unfold readMounted. rewrite Hs.
      rewrite lookup_app_r by lia. rewrite Nat.sub_diag. reflexivity. }
    destruct (error r) as [e|] eqn:He; eexists; simpl; unfold launch; simpl;
      rewrite lookup_insert_eq; simpl; rewrite He; simpl.
    + rewrite Hm by (rewrite setMessage_mounted; reflexivity). simpl.
      split; [reflexivity|]. simpl.
      rewrite setMessage_message, setMessage_items. repeat split.
    + rewrite Hm by reflexivity. simpl. split; [reflexivity|].
      split; reflexivity.
  - intros t0 es0 L es L1 r Hreach Hes Hsteps.
    pose proof (steps_inv es0 _ L (initialLoop_inv t0) Hreach) as HL.
    set (cell := length (mounted (ui L))) in *.
    set (n := nextRequest L) in *.
    destruct (initialLoad_run cell) as (k & Hstart & Hk).
    simpl in Hsteps.
    set (L0 := launch (initialLoad cell)
                 (with_ui (fun _ => snd (allocMounted (ui L))) L)) in *.
    assert (HL0 : loop_inv L0).
    { apply launch_inv; [apply initialLoad_safe|].
      apply with_ui_inv; [intros H; exact H|exact HL]. }
    assert (Hp0 : pending L0 !! n = Some (PSelect k) /\ n < nextRequest L0).
    { unfold L0, launch. simpl ui. rewrite Hstart. simpl.
      rewrite lookup_insert_eq. split; [reflexivity|]. unfold n. lia. }
    assert (Hm0 : readMounted cell (ui L0) = true).
    { unfold readMounted, L0.
      rewrite launch_mounted by apply initialLoad_safe. simpl.
      unfold cell. rewrite lookup_app_r by lia.
      rewrite Nat.sub_diag. reflexivity. }
    destruct Hp0 as [Hp0 Hn0].
    destruct (steps_keep_run es L0 L1 cell n _ HL0 Hes Hsteps Hm0 Hn0 Hp0)
      as [Hm1 Hp1].
    assert (Hrun : run (k r) (ui L1) =
                   (setLoading false
                      match error r with
                      | Some e =>
                          setMessage
                            (Some (mkMessage err (PostgrestError.message e)))
                            (ui L1)
                      | None => setItems (fun _ => default [] (data r)) (ui L1)
                      end, Finished tt)).
    { rewrite Hk. cbv zeta.
      destruct (error r) as [e|].
      - rewrite readMounted_setMessage, Hm1. reflexivity.
      - change (readMounted cell (setItems (fun _ => default [] (data r)) (ui L1)))
          with (readMounted cell (ui L1)).
        rewrite Hm1. reflexivity. }
    eexists. simpl. rewrite Hp1. unfold launch. simpl ui. rewrite Hrun.
    split; [reflexivity|]. simpl. split; [reflexivity|].
    destruct (error r) as [e|]; simpl.
    + rewrite setMessage_message, setMessage_items. split; reflexivity.
    + reflexivity.
Qed.

(** C8. A notice set in a state of the component replaces whatever
    timer was queued by one timer of its own, due 2500 ms later: while
    less than 2500 ms have passed the notice stays, and once 2500 ms have
    passed with no other event it is gone. In every state the event loop
    can reach the toast is in order, so that whatever operation set the
    notice, it is gone after 2500 ms without further events. *)
Theorem notice_clears_after_2500ms :
  (forall s m, toast_inv s ->
     message (setMessage (Some m) s) = Some m /\
     timers (setMessage (Some m) s) = [(nextTimer s, (now s + 2500)%Z)] /\
     (forall dt, (0 <= dt < 2500)%Z ->
        message (elapse dt (setMessage (Some m) s)) = Some m) /\
     message (elapse 2500 (setMessage (Some m) s)) = None) /\
  (forall t0 es L,
     steps userId URL_parses es (initialLoop t0) = Some L ->
     toast_inv (ui L) /\
     length (timers (ui L)) <= 1 /\
     message (elapse 2500 (ui L)) = None).
Proof.
  split.
  - intros s m Hs.
    destruct (setMessage_schedules m s Hs) as (Hm & Ht & Htt & Hnow).
    pose proof (setMessage_toast_inv (Some m) s Hs) as Hinv.
    split; [exact Hm|]. split; [exact Ht|]. split.
    + intros dt Hdt.
      destruct (elapse_toast dt _ (proj1 Hdt) Hinv) as (_ & Hstay & _ & _).
      rewrite (Hstay _ _ Ht); [exact Hm|]. rewrite Hnow. lia.
    + destruct (elapse_toast 2500 _ ltac:(lia) Hinv) as (_ & _ & Hgo & _).
      apply (Hgo _ _ Ht). rewrite Hnow. lia.
  - intros t0 es L Hsteps.
    destruct (steps_inv es (initialLoop t0) L (initialLoop_inv t0) Hsteps)
      as (Hinv & _ & _).
    split; [exact Hinv|].
    destruct (elapse_toast 2500 (ui L) ltac:(lia) Hinv) as (_ & _ & Hgo & Hnone).
    unfold toast_inv in Hinv. destruct (message (ui L)) as [m|] eqn:Hm.
    + destruct Hinv as (t & due & Ht & _ & Hdue).
      split; [rewrite Ht; simpl; lia|].
      apply (Hgo _ _ Ht). lia.
    + destruct Hinv as [Ht _].
      split; [rewrite Ht; simpl; lia|].
      exact (Hnone Ht).
Qed.




End Properties.

(** ** Scenarios *)

Lemma fetchBookmarks_last_response_wins_witness :
  exists L,
    steps (lit "u") rejects_spaces
      [WindowFocus; RealtimeChange;
       Resolve 1 (RSelect (mkResult (Some [bookmarkB]) None));
       Resolve 0 (RSelect (mkResult (Some [bookmarkA]) None))]
      twoBookmarksLoop = Some L /\
    items (ui L) = [bookmarkA].
Proof.
  destruct (fetchBookmarks_last_response_wins (lit "u") rejects_spaces)
    as (k & _ & _ & _ & H).
  destruct (H twoBookmarksLoop (mkResult (Some [bookmarkA]) None)
              (mkResult (Some [bookmarkB]) None) eq_refl eq_refl) as [_ H2].
  exact H2.
Defined.

Lemma addBookmark_rejects_malformed_input_witness :
  (trim (lit "  ") = [] /\
   exists s',
     run (addBookmark (lit "u") rejects_spaces (lit "  ") empty_string) twoBookmarks
     = (s', Finished tt) /\
     items s' = [bookmarkA; bookmarkB] /\
     message s' = Some (mkMessage err (lit "Please enter a title."))) /\
  (rejects_spaces (normalizeUrl (lit "a b")) = false /\
   exists s',
     run (addBookmark (lit "u") rejects_spaces (lit "Docs") (lit "a b")) twoBookmarks
     = (s', Finished tt) /\
     items s' = [bookmarkA; bookmarkB] /\
     message s' = Some (mkMessage err (lit "Please enter a valid URL."))).
Proof.
  split.
  - split; [reflexivity|].
    destruct (addBookmark_rejects_malformed_input (lit "u") rejects_spaces
                (lit "  ") empty_string (or_introl eq_refl)) as [H _].
    exact (H twoBookmarks).
  - split; [reflexivity|].
    destruct (addBookmark_rejects_malformed_input (lit "u") rejects_spaces
                (lit "Docs") (lit "a b") (or_intror (or_intror eq_refl)))
      as [H _].
    exact (H twoBookmarks).
Defined.

Lemma deleteBookmark_removes_by_id_witness :
  items (ui twoBookmarksLoop) = [bookmarkA; bookmarkB] /\
  exists L,
    steps (lit "u") rejects_spaces
      [ClickDelete (lit "1"); Resolve 0 (RDelete (mkResult None None))]
      twoBookmarksLoop = Some L /\
    items (ui L) = [bookmarkB] /\ deletingId (ui L) = None.
Proof.
  split; [reflexivity|].
  destruct (deleteBookmark_removes_by_id (lit "u") rejects_spaces) as [_ H].
  destruct (H twoBookmarksLoop eq_refl) as [H1 _]. exact H1.
Defined.

(** C4, counterexample. The form holds "Docs" and "example.org/x", both
    well formed, and is submitted. A change notification starts a refresh
    while the insert is in flight, and the refresh is answered first, with
    the new record in it; then the acknowledgment of the insert arrives
    with the same record. The record is at the head of [items], and a
    second time behind it. *)
Lemma addBookmark_duplicates_after_racing_refresh :
  trim (lit "Docs") <> [] /\ trim (lit "example.org/x") <> [] /\
  rejects_spaces (normalizeUrl (lit "example.org/x")) = true /\
  exists L,
    steps (lit "u") rejects_spaces
      [EffectRun;
       Resolve 0 (RSelect (mkResult (Some []) None));
       ChangeTitle (lit "Docs"); ChangeUrl (lit "example.org/x"); Submit;
       RealtimeChange;
       Resolve 2 (RSelect (mkResult (Some [bookmarkDocs]) None));
       Resolve 1 (RInsert (mkResult (Some bookmarkDocs) None))]
      (initialLoop 0) = Some L /\
    items (ui L) = [bookmarkDocs; bookmarkDocs] /\
    length (with_id (lit "9") (items (ui L))) = 2 /\
    length (with_id (lit "9") (items (ui L))) <> 1.
Proof.
  split; [vm_compute; discriminate|].
  split; [vm_compute; discriminate|].
  split; [reflexivity|].
  eexists. split; [vm_compute; reflexivity|].
  split; [reflexivity|]. split; [reflexivity|]. vm_compute. discriminate.
Qed.

Lemma addBookmark_prepends_on_acknowledgment_witness :
  trim (lit "Docs") <> [] /\ trim (lit "example.org/x") <> [] /\
  rejects_spaces (normalizeUrl (lit "example.org/x")) = true /\
  with_id (lit "9") (items twoBookmarks) = [] /\
  exists k : Result Bookmark.t -> Task unit,
    (exists s1,
       run (addBookmark (lit "u") rejects_spaces (lit "Docs") (lit "example.org/x"))
         twoBookmarks
       = (s1, OnInsert (mkNewRow (lit "u") (lit "Docs") (lit "https://example.org/x")) k) /\
       items s1 = [bookmarkA; bookmarkB]) /\
    (exists s',
       run (k (mkResult (Some bookmarkDocs) None)) twoBookmarks = (s', Finished tt) /\
       items s' = [bookmarkDocs; bookmarkA; bookmarkB] /\
       with_id (lit "9") (items s') = [bookmarkDocs]).
Proof.
  assert (Ht : trim (lit "Docs") <> []) by (vm_compute; discriminate).
  assert (Hu : trim (lit "example.org/x") <> []) by (vm_compute; discriminate).
  split; [exact Ht|]. split; [exact Hu|]. split; [reflexivity|].
  split; [reflexivity|].
  destruct (addBookmark_prepends_on_acknowledgment (lit "u") rejects_spaces
              (lit "Docs") (lit "example.org/x") Ht Hu eq_refl)
    as (k & Hstart & Hk).
  exists k. split; [exact (Hstart twoBookmarks)|].
  destruct (Hk twoBookmarks (mkResult (Some bookmarkDocs) None) bookmarkDocs
              eq_refl eq_refl) as (s' & Hrun & Hitems & Honce).
  exists s'. split; [exact Hrun|]. split; [exact Hitems|].
  exact (Honce eq_refl).
Defined.

Lemma store_errors_become_notices_witness :
  trim (lit "Docs") <> [] /\ trim (lit "example.org/x") <> [] /\
  rejects_spaces (normalizeUrl (lit "example.org/x")) = true /\
  exists k : Result Bookmark.t -> Task unit,
    (exists s1,
       run (addBookmark (lit "u") rejects_spaces (lit "Docs") (lit "example.org/x"))
         twoBookmarks
       = (s1, OnInsert (mkNewRow (lit "u") (lit "Docs") (lit "https://example.org/x")) k)) /\
    (exists s',
       run (k (mkResult None (Some (PostgrestError.mk (lit "permission denied")))))
         twoBookmarks = (s', Finished tt) /\
       items s' = [bookmarkA; bookmarkB] /\
       message s' = Some (mkMessage err (lit "permission denied"))).
Proof.
  assert (Ht : trim (lit "Docs") <> []) by (vm_compute; discriminate).
  assert (Hu : trim (lit "example.org/x") <> []) by (vm_compute; discriminate).
  split; [exact Ht|]. split; [exact Hu|]. split; [reflexivity|].
  destruct (store_errors_become_notices (lit "u") rejects_spaces) as [H _].
  destruct (H (lit "Docs") (lit "example.org/x") Ht Hu eq_refl)
    as (k & Hstart & Hk).
  exists k. split; [exact (Hstart twoBookmarks)|].
  exact (Hk twoBookmarks
           (mkResult None (Some (PostgrestError.mk (lit "permission denied"))))
           (PostgrestError.mk (lit "permission denied")) eq_refl).
Defined.

Lemma initialLoad_clears_loading_witness :
  readMounted 0 (setLoading true (snd (allocMounted twoBookmarks))) = true /\
  exists k : Result (list Bookmark.t) -> Task unit,
    (exists s1,
       run (initialLoad 0) (snd (allocMounted twoBookmarks)) = (s1, OnSelect k) /\
       loading s1 = true /\ items s1 = [bookmarkA; bookmarkB]) /\
    (exists s',
       run (k (mkResult None (Some (PostgrestError.mk (lit "offline")))))
         (setLoading true (snd (allocMounted twoBookmarks)))
       = (s', Finished tt) /\
       loading s' = false /\
       message s' = Some (mkMessage err (lit "offline")) /\
       items s' = [bookmarkA; bookmarkB]).
Proof.
  split; [reflexivity|].
  destruct (initialLoad_clears_loading (lit "u") rejects_spaces) as [H _].
  destruct (H 0) as (k & Hstart & Hk).
  exists k. split; [exact (Hstart (snd (allocMounted twoBookmarks)))|].
  exact (Hk (setLoading true (snd (allocMounted twoBookmarks)))
            (mkResult None (Some (PostgrestError.mk (lit "offline")))) eq_refl).
Defined.

Lemma notice_clears_after_2500ms_witness :
  toast_inv twoBookmarks /\
  (0 <= 2499 < 2500)%Z /\
  message (elapse 2499 (setMessage (Some (mkMessage ok (lit "Deleted."))) twoBookmarks))
  = Some (mkMessage ok (lit "Deleted.")) /\
  message (elapse 2500 (setMessage (Some (mkMessage ok (lit "Deleted."))) twoBookmarks))
  = None /\
  (steps (lit "u") rejects_spaces
     [ClickDelete (lit "1"); Resolve 0 (RDelete (mkResult None None))]
     (initialLoop 0)
   = Some (mkLoop (setMessage (Some (mkMessage ok (lit "Deleted."))) (initialState 0))
             ∅ 1 []) /\
   message (elapse 2500
              (setMessage (Some (mkMessage ok (lit "Deleted."))) (initialState 0)))
   = None).
Proof.
  assert (Hinv : toast_inv twoBookmarks) by (split; reflexivity).
  assert (Hdt : (0 <= 2499 < 2500)%Z) by lia.
  assert (Hsteps :
    steps (lit "u") rejects_spaces
      [ClickDelete (lit "1"); Resolve 0 (RDelete (mkResult None None))]
      (initialLoop 0)
    = Some (mkLoop (setMessage (Some (mkMessage ok (lit "Deleted."))) (initialState 0))
              ∅ 1 [])) by (vm_compute; reflexivity).
  split; [exact Hinv|]. split; [exact Hdt|].
  destruct (notice_clears_after_2500ms (lit "u") rejects_spaces) as [H1 H2].
  destruct (H1 twoBookmarks (mkMessage ok (lit "Deleted.")) Hinv)
    as (_ & _ & Hstay & Hgo).
  split; [exact (Hstay 2499%Z Hdt)|]. split; [exact Hgo|].
  split; [exact Hsteps|].
  exact (proj2 (proj2 (H2 0%Z _ _ Hsteps))).
Defined.

Lemma deleteBookmark_absent_id_is_accepted_witness :
  (forall b, b ∈ items twoBookmarks -> Bookmark.id b <> lit "3") /\
  exists (k : Result unit -> Task unit) (s' : State),
    (forall s0, exists s1, run (deleteBookmark (lit "3")) s0 = (s1, OnDelete (lit "3") k)) /\
    run (k (mkResult None None)) twoBookmarks = (s', Finished tt) /\
    items s' = [bookmarkA; bookmarkB] /\
    message s' = Some (mkMessage ok (lit "Deleted.")).
Proof.
  assert (Habsent : forall b, b ∈ items twoBookmarks -> Bookmark.id b <> lit "3").
  { intros b Hb. simpl in Hb.
    apply elem_of_cons in Hb. destruct Hb as [->|Hb]; [vm_compute; discriminate|].
    apply elem_of_cons in Hb. destruct Hb as [->|Hb]; [vm_compute; discriminate|].
    apply elem_of_nil in Hb. contradiction. }
  split; [exact Habsent|].
  exact (deleteBookmark_absent_id_is_accepted (lit "3") twoBookmarks
           (mkResult None None) Habsent eq_refl).
Defined.


(** * Further properties of the component *)

(** ** [normalizeUrl] *)

Lemma normalizeUrl_scheme (raw : jsstring) :
  normalizeUrl raw = [] \/ has_http_scheme (normalizeUrl raw) = true.
Proof.
  destruct (trim raw) as [|c v] eqn:Ht.
  - left. apply normalizeUrl_empty. exact Ht.
  - right. assert (Hne : trim raw <> []) by (rewrite Ht; discriminate).
    destruct (test_http_scheme (trim raw)) eqn:Hs.
    + rewrite (normalizeUrl_http raw Hs), <- test_http_scheme_spec. exact Hs.
    + rewrite (normalizeUrl_other raw Hne Hs). reflexivity.
Qed.

Lemma normalizeUrl_trimmed (raw : jsstring) :
  trim (normalizeUrl raw) = normalizeUrl raw.
Proof.
  destruct (trim raw) as [|c v] eqn:Ht.
  - rewrite (normalizeUrl_empty raw Ht). reflexivity.
  - assert (Hne : trim raw <> []) by (rewrite Ht; discriminate).
    destruct (test_http_scheme (trim raw)) eqn:Hs.
    + rewrite (normalizeUrl_http raw Hs). apply trim_idem.
    + rewrite (normalizeUrl_other raw Hne Hs).
      apply trim_https_prefix; [exact Hne|apply trim_idem].
Qed.

(** X1. Whatever the input, what [normalizeUrl] returns is either the
    empty string, exactly when the input is blank, or a string that starts
    with [http://] or [https://] in some letter case; and it has no white
    space left at either end. *)
Theorem normalizeUrl_output_has_scheme (raw : jsstring) :
  falsy (normalizeUrl raw) = falsy (trim raw) /\
  (normalizeUrl raw = [] \/ has_http_scheme (normalizeUrl raw) = true) /\
  trim (normalizeUrl raw) = normalizeUrl raw.
Proof.
  split; [apply falsy_normalizeUrl|].
  split; [apply normalizeUrl_scheme|apply normalizeUrl_trimmed].
Qed.

Section Extras.

Variable userId : jsstring.
Variable URL_parses : jsstring -> bool.

(** ** [addBookmark] *)

(** X2. Whenever [addBookmark] issues an insert, the row it sends
    carries the [userId] prop, the trimmed title, which is not empty and
    has no white space at its ends, and the normalised URL, which starts
    with [http://] or [https://] and is one the host's parser accepts. *)
Theorem addBookmark_insert_payload
    (rawTitle rawUrl : jsstring) (s s1 : State) (row : NewRow)
    (k : Result Bookmark.t -> Task unit) :
  run (addBookmark userId URL_parses rawTitle rawUrl) s = (s1, OnInsert row k) ->
  row_user_id row = userId /\
  row_title row = trim rawTitle /\
  row_title row <> [] /\
  trim (row_title row) = row_title row /\
  row_url row = normalizeUrl rawUrl /\
  has_http_scheme (row_url row) = true /\
  URL_parses (row_url row) = true.
Proof.
  destruct (addBookmark_run userId URL_parses) as (k0 & k' & Hrun & _).
  rewrite Hrun. cbv zeta.
  destruct (falsy (trim rawTitle)) eqn:Ht; [discriminate|].
  destruct (falsy (normalizeUrl rawUrl)) eqn:Hu; [discriminate|].
  destruct (URL_parses (normalizeUrl rawUrl)) eqn:Hp; [|discriminate].
  intros E. injection E as _ <- _. simpl.
  split; [reflexivity|]. split; [reflexivity|].
  split; [intros H; rewrite H in Ht; discriminate Ht|].
  split; [apply trim_idem|]. split; [reflexivity|].
  split; [|exact Hp].
  destruct (normalizeUrl_scheme rawUrl) as [H|H];
    [rewrite H in Hu; discriminate Hu|exact H].
Qed.

(** X6. A submit that fails keeps the form: after a validation failure
    the two inputs and [submitting] are as before; for a well-formed
    input [submitting] is raised and the notice cleared while the insert
    is in flight, and when the store rejects the insert [submitting] is
    lowered again and the two inputs still hold what they held. *)
Theorem addBookmark_failure_keeps_form :
  (forall rawTitle rawUrl s,
     trim rawTitle = [] \/ trim rawUrl = [] \/
     URL_parses (normalizeUrl rawUrl) = false ->
     exists s',
       run (addBookmark userId URL_parses rawTitle rawUrl) s = (s', Finished tt) /\
       title s' = title s /\ url s' = url s /\ submitting s' = submitting s) /\
  (exists k : Result Bookmark.t -> Task unit,
     (forall rawTitle rawUrl s,
        trim rawTitle <> [] -> trim rawUrl <> [] ->
        URL_parses (normalizeUrl rawUrl) = true ->
        exists s1,
          run (addBookmark userId URL_parses rawTitle rawUrl) s =
          (s1, OnInsert (mkNewRow userId (trim rawTitle) (normalizeUrl rawUrl)) k) /\
          submitting s1 = true /\ message s1 = None /\
          title s1 = title s /\ url s1 = url s) /\
     (forall s r e, error r = Some e ->
        exists s',
          run (k r) s = (s', Finished tt) /\
          submitting s' = false /\ title s' = title s /\ url s' = url s)).
Proof.
  split.
  - intros rawTitle rawUrl s Hbad.
    destruct (addBookmark_run userId URL_parses) as (k & k' & Hrun & _).
    rewrite Hrun. cbv zeta. rewrite falsy_normalizeUrl.
    destruct (falsy (trim rawTitle)) eqn:Ht;
      [|destruct (falsy (trim rawUrl)) eqn:Hu;
        [|destruct (URL_parses (normalizeUrl rawUrl)) eqn:Hp]].
    4:{ eexists. split; [reflexivity|].
        rewrite !setMessage_title, !setMessage_url.
        destruct (setMessage_frame
                    (Some (mkMessage err (lit "Please enter a valid URL.")))
                    (setMessage None s)) as (_ & _ & _ & _ & -> & _).
        destruct (setMessage_frame None s) as (_ & _ & _ & _ & -> & _).
        repeat split. }
    3:{ exfalso. destruct Hbad as [H|[H|H]].
        - rewrite H in Ht. discriminate Ht.
        - rewrite H in Hu. discriminate Hu.
        - discriminate H. }
    + eexists. split; [reflexivity|].
      rewrite !setMessage_title, !setMessage_url.
      destruct (setMessage_frame
                  (Some (mkMessage err (lit "Please enter a title.")))
                  (setMessage None s)) as (_ & _ & _ & _ & -> & _).
      destruct (setMessage_frame None s) as (_ & _ & _ & _ & -> & _).
      repeat split.
    + eexists. split; [reflexivity|].
      rewrite !setMessage_title, !setMessage_url.
      destruct (setMessage_frame
                  (Some (mkMessage err (lit "Please enter a URL.")))
                  (setMessage None s)) as (_ & _ & _ & _ & -> & _).
      destruct (setMessage_frame None s) as (_ & _ & _ & _ & -> & _).
      repeat split.
  - destruct (addBookmark_accepts userId URL_parses) as (k & k' & Hrun & Hk & _).
    exists k. split.
    + intros rawTitle rawUrl s Ht Hu Hp. eexists.
      split; [apply Hrun; assumption|]. simpl.
      rewrite setMessage_message, setMessage_title, setMessage_url.
      repeat split.
    + intros s r e Hr. eexists. split; [rewrite Hk, Hr; reflexivity|]. simpl.
      rewrite setMessage_title, setMessage_url.
      destruct (setMessage_frame
                  (Some (mkMessage err (PostgrestError.message e)))
                  (setSubmitting false s)) as (_ & _ & _ & _ & -> & _).
      repeat split.
Qed.

(** ** [fetchBookmarks] *)

(** X5. A refresh touches only what it must. A reply with an error sets
    the error notice and leaves [items], the two inputs, [loading],
    [submitting] and [deletingId] as they are; a reply without error
    replaces [items] and leaves all of these and also the notice and its
    timer as they are. *)
Theorem fetchBookmarks_frame :
  exists k : Result (list Bookmark.t) -> Task unit,
    (forall s, run fetchBookmarks s = (s, OnSelect k)) /\
    (forall s r e, error r = Some e ->
       exists s',
         run (k r) s = (s', Finished tt) /\
         message s' = Some (mkMessage err (PostgrestError.message e)) /\
         items s' = items s /\ title s' = title s /\ url s' = url s /\
         loading s' = loading s /\ submitting s' = submitting s /\
         deletingId s' = deletingId s) /\
    (forall s r, error r = None ->
       exists s',
         run (k r) s = (s', Finished tt) /\
         items s' = default [] (data r) /\
         message s' = message s /\ timers s' = timers s /\
         toastTimer s' = toastTimer s /\
         title s' = title s /\ url s' = url s /\
         loading s' = loading s /\ submitting s' = submitting s /\
         deletingId s' = deletingId s).
Proof.
  eexists. split; [intros s; reflexivity|]. split.
  - intros s r e Hr. eexists. simpl. rewrite Hr. simpl.
    split; [reflexivity|]. rewrite setMessage_message.
    destruct (setMessage_frame
                (Some (mkMessage err (PostgrestError.message e))) s)
      as (-> & -> & -> & -> & -> & -> & _).
    repeat split.
  - intros s r Hr. eexists. simpl. rewrite Hr. simpl.
    repeat split.
Qed.

(** ** The initial load *)

(** X7. A run of the initial-load effect that has been cleaned up no
    longer decides [loading]: its reply still replaces [items] or sets the
    error notice, but leaves [loading] as it is. So when the effect is run,
    cleaned up and run again, [loading] is still true after the reply to
    the first run and false only after the reply to the second. *)
Theorem initialLoad_stale_run_keeps_loading :
  (forall cell, exists k : Result (list Bookmark.t) -> Task unit,
     (forall s, run (initialLoad cell) s = (setLoading true s, OnSelect k)) /\
     (forall s r, readMounted cell s = false ->
        exists s',
          run (k r) s = (s', Finished tt) /\
          loading s' = loading s /\
          match error r with
          | Some e =>
              message s' = Some (mkMessage err (PostgrestError.message e)) /\
              items s' = items s
          | None => items s' = default [] (data r)
          end)) /\
  (forall L r1 r2,
     exists L1 L2,
       steps userId URL_parses
         [EffectRun; EffectCleanup (length (mounted (ui L))); EffectRun;
          Resolve (nextRequest L) (RSelect r1)] L = Some L1 /\
       loading (ui L1) = true /\
       step userId URL_parses (Resolve (S (nextRequest L)) (RSelect r2)) L1
       = Some L2 /\
       loading (ui L2) = false).
Proof.
  split.
  - intros cell. destruct (initialLoad_run cell) as (k & Hstart & Hk).
    exists k. split; [exact Hstart|].
    intros s r Hm. eexists. split; [rewrite Hk; reflexivity|].
    destruct (error r) as [e|]; simpl.
    + rewrite readMounted_setMessage, Hm. simpl.
      rewrite setMessage_message, setMessage_items, setMessage_loading.
      repeat split.
    + change (readMounted cell (setItems (fun _ => default [] (data r)) s))
        with (readMounted cell s).
      rewrite Hm. split; reflexivity.
  - intros L r1 r2.
    set (c := length (mounted (ui L))).
    assert (Hold : forall l : list bool,
              default false ((<[c := false]> (mounted (ui L) ++ [true]) ++ l) !! c)
              = false).
    { intros l. rewrite lookup_app_l
        by (rewrite length_insert, length_app; simpl; unfold c; lia).
      rewrite list_lookup_insert_eq
        by (rewrite length_app; simpl; unfold c; lia).
      reflexivity. }
    assert (Hnew : default false
              ((<[c := false]> (mounted (ui L) ++ [true]) ++ [true]) !! S c)
              = true).
    { rewrite lookup_app_r
        by (rewrite length_insert, length_app; simpl; unfold c; lia).
      rewrite length_insert, length_app. simpl.
      replace (S c - (length (mounted (ui L)) + 1)) with 0 by (unfold c; lia).
      reflexivity. }
    assert (Hlen : length (<[c := false]> (mounted (ui L) ++ [true])) = S c)
      by (rewrite length_insert, length_app; simpl; unfold c; lia).
    destruct (error r1) as [e1|] eqn:H1; destruct (error r2) as [e2|] eqn:H2;
      eexists; eexists; simpl; unfold launch; simpl; fold c;
      rewrite ?Hlen; simpl;
      rewrite lookup_insert_ne by lia; rewrite lookup_insert_eq; simpl;
      rewrite H1; simpl; unfold readMounted; simpl;
      rewrite ?setMessage_mounted; simpl; rewrite (Hold [true]); simpl;
      (split; [reflexivity|]); simpl; rewrite ?setMessage_loading; simpl;
      (split; [reflexivity|]);
      rewrite lookup_delete_ne by lia; rewrite lookup_insert_eq;
      unfold launch; simpl; rewrite H2; simpl; unfold readMounted; simpl;
      rewrite ?setMessage_mounted; simpl; rewrite Hnew; simpl;
      (split; reflexivity).
Qed.

(** ** [deleteBookmark] *)

Lemma filter_others_when_none (i : jsstring) (l : list Bookmark.t) :
  with_id i l = [] -> filter (fun b => Bookmark.id b <> i) l = l.
Proof.
  intros H. apply filter_id_all. intros b Hb Hid.
  assert (Hin : b ∈ with_id i l)
    by (apply list_elem_of_filter; split; assumption).
  rewrite H in Hin. apply elem_of_nil in Hin. exact Hin.
Qed.

(** X8. Adding a record and then deleting it by the identifier the
    store gave it brings [items] back to what it was, provided no record
    had that identifier before: submit of a well-formed form, the
    acknowledgment with the record, a click on its Delete, the store's
    success. *)
Theorem add_then_delete_restores_items (L : Loop) (b : Bookmark.t) :
  trim (title (ui L)) <> [] -> trim (url (ui L)) <> [] ->
  URL_parses (normalizeUrl (url (ui L))) = true ->
  with_id (Bookmark.id b) (items (ui L)) = [] ->
  exists L1 L2,
    steps userId URL_parses
      [Submit; Resolve (nextRequest L) (RInsert (mkResult (Some b) None))] L
    = Some L1 /\
    items (ui L1) = b :: items (ui L) /\
    steps userId URL_parses
      [ClickDelete (Bookmark.id b);
       Resolve (nextRequest L1) (RDelete (mkResult None None))] L1
    = Some L2 /\
    items (ui L2) = items (ui L).
Proof.
  intros Ht Hu Hp Hnew.
  destruct (addBookmark_accepts userId URL_parses) as (k & k' & Hrun & Hk & _).
  assert (H1 : steps userId URL_parses
                 [Submit; Resolve (nextRequest L) (RInsert (mkResult (Some b) None))] L
               = Some (mkLoop (fst (run (k (mkResult (Some b) None))
                                      (setSubmitting true (setMessage None (ui L)))))
                         (delete (nextRequest L)
                            (<[nextRequest L :=
                                 PInsert (mkNewRow userId (trim (title (ui L)))
                                            (normalizeUrl (url (ui L)))) k]>
                               (pending L)))
                         (S (nextRequest L)) (unhandled L))).
  { assert (Hsubmit : step userId URL_parses Submit L
                       = Some (suspend
                                 (PInsert (mkNewRow userId (trim (title (ui L)))
                                             (normalizeUrl (url (ui L)))) k)
                                 (setSubmitting true (setMessage None (ui L))) L)).
    { unfold step, launch. rewrite (Hrun _ _ _ Ht Hu Hp). reflexivity. }
    cbn [steps]. rewrite Hsubmit. cbn [step suspend pending ui nextRequest unhandled].
    rewrite lookup_insert_eq. unfold launch. cbn [ui].
    destruct (run (k (mkResult (Some b) None))
                (setSubmitting true (setMessage None (ui L)))) as [s' o] eqn:E.
    rewrite Hk in E. simpl in E. injection E as <- <-. reflexivity. }
  eexists. eexists. split; [exact H1|].
  rewrite Hk. simpl. repeat (rewrite setMessage_items; simpl).
  split; [reflexivity|]. split.
  - simpl. unfold launch. simpl. rewrite lookup_insert_eq. simpl. reflexivity.
  - simpl. repeat (rewrite setMessage_items; simpl).
    rewrite filter_cons_False by (intros H; apply H; reflexivity).
    apply filter_others_when_none. exact Hnew.
Qed.

(** X4. Two deletes in flight at once: whichever of the two successes
    arrives first, [items] ends as it was with the records of both
    identifiers filtered out, [deletingId] ends cleared and the notice is
    "Deleted."; and the first reply already clears [deletingId], while
    the other delete is still in flight. *)
Theorem two_deletes_commute (L : Loop) (a b : jsstring) :
  exists L1 L1' L2 L2',
    steps userId URL_parses
      [ClickDelete a; ClickDelete b;
       Resolve (nextRequest L) (RDelete (mkResult None None))] L = Some L1 /\
    step userId URL_parses
      (Resolve (S (nextRequest L)) (RDelete (mkResult None None))) L1 = Some L1' /\
    steps userId URL_parses
      [ClickDelete a; ClickDelete b;
       Resolve (S (nextRequest L)) (RDelete (mkResult None None))] L = Some L2 /\
    step userId URL_parses
      (Resolve (nextRequest L) (RDelete (mkResult None None))) L2 = Some L2' /\
    deletingId (ui L1) = None /\ deletingId (ui L2) = None /\
    is_Some (pending L1 !! S (nextRequest L)) /\
    is_Some (pending L2 !! nextRequest L) /\
    items (ui L1') =
      filter (fun x => Bookmark.id x <> a /\ Bookmark.id x <> b) (items (ui L)) /\
    items (ui L2') = items (ui L1') /\
    deletingId (ui L1') = None /\ deletingId (ui L2') = None /\
    message (ui L1') = Some (mkMessage ok (lit "Deleted.")) /\
    message (ui L2') = Some (mkMessage ok (lit "Deleted.")).
Proof.
  assert (Hne : nextRequest L <> S (nextRequest L)) by lia.
  eexists. eexists. eexists. eexists.
  split.
  { simpl. unfold launch. simpl.
    rewrite lookup_insert_ne by lia. rewrite lookup_insert_eq. simpl.
    reflexivity. }
  split.
  { simpl. rewrite lookup_delete_ne by lia. rewrite lookup_insert_eq.
    unfold launch. simpl. reflexivity. }
  split.
  { simpl. unfold launch. simpl. rewrite lookup_insert_eq. simpl.
    reflexivity. }
  split.
  { simpl. rewrite lookup_delete_ne by lia.
    rewrite lookup_insert_ne by lia. rewrite lookup_insert_eq.
    unfold launch. simpl. reflexivity. }
  simpl.
  repeat (first [ rewrite setMessage_deletingId | rewrite setMessage_items
                | rewrite setMessage_message | progress simpl ]).
  split; [reflexivity|]. split; [reflexivity|].
  split.
  { rewrite lookup_delete_ne by lia. rewrite lookup_insert_eq. eexists.
    reflexivity. }
  split.
  { rewrite lookup_delete_ne by lia. rewrite lookup_insert_ne by lia.
    rewrite lookup_insert_eq. eexists. reflexivity. }
  split.
  { rewrite list_filter_filter. apply list_filter_iff. intros x. tauto. }
  split.
  { rewrite !list_filter_filter. apply list_filter_iff. intros x. tauto. }
  repeat split.
Qed.

(** ** One insert at a time *)

Lemma Quiet_run {A : Type} (t : Task A) (s : State) :
  Quiet t ->
  submitting (fst (run t s)) = submitting s /\
  match snd (run t s) with
  | OnInsert _ _ => False
  | OnSelect k => forall r, Quiet (k r)
  | OnDelete _ k => forall r, Quiet (k r)
  | _ => True
  end.
Proof.
  intros Ht. revert s. induction Ht as [a|e|f k Hf Hk IH|k Hk IH|i k Hk IH];
    intros s; simpl; try (split; [reflexivity|]; auto).
  destruct (IH (f s)) as [H1 H2]. split; [rewrite H1; apply Hf|exact H2].
Qed.

Lemma setMessage_submitting (v : option Message) (s : State) :
  submitting (setMessage v s) = submitting s.
Proof. apply setMessage_frame. Qed.

Lemma elapse_submitting (dt : Z) (s : State) :
  submitting (elapse dt s) = submitting s.
Proof.
  unfold elapse.
  generalize (List.filter (fun p : nat * Z => (snd p <=? now (advance dt s))%Z)
                (timers (advance dt s))).
  intros l. change (submitting s) with (submitting (advance dt s)).
  generalize (advance dt s). clear s.
  induction l as [|p l IH]; intros s; simpl; [reflexivity|].
  rewrite IH. unfold fire. destruct (existsb _ _); [|reflexivity].
  rewrite setMessage_submitting. reflexivity.
Qed.

Ltac quiet_upd :=
  let s := fresh "s" in
  intros s;
  first [ apply setMessage_submitting
        | reflexivity
        | destruct (readMounted _ s); reflexivity ].

Ltac quiet_tac :=
  repeat first
    [ apply Quiet_Ret
    | apply Quiet_Throw
    | apply Quiet_Upd; [quiet_upd|]
    | apply Quiet_AwaitSelect; intros ?
    | apply Quiet_AwaitDelete; intros ?
    | progress simpl
    | match goal with
      | |- context [match ?x with _ => _ end] => destruct x
      end ].

Lemma fetchBookmarks_quiet : Quiet fetchBookmarks.
Proof. unfold fetchBookmarks. quiet_tac. Qed.

Lemma initialLoad_quiet (cell : nat) : Quiet (initialLoad cell).
Proof. unfold initialLoad, fetchBookmarks. quiet_tac. Qed.

Lemma deleteBookmark_quiet (id : jsstring) : Quiet (deleteBookmark id).
Proof. unfold deleteBookmark. quiet_tac. Qed.

(** A submit either ends at once with [submitting] as it was, or raises
    [submitting] and parks on the insert. *)
Lemma addBookmark_opens (rawTitle rawUrl : jsstring) (s : State) :
  (submitting (fst (run (addBookmark userId URL_parses rawTitle rawUrl) s))
   = submitting s /\
   snd (run (addBookmark userId URL_parses rawTitle rawUrl) s) = Finished tt) \/
  (submitting (fst (run (addBookmark userId URL_parses rawTitle rawUrl) s)) = true /\
   exists row k,
     snd (run (addBookmark userId URL_parses rawTitle rawUrl) s) = OnInsert row k /\
     Pending_quiet (PInsert row k)).
Proof.
  unfold addBookmark. simpl.
  destruct (falsy (trim rawTitle)).
  { left. simpl. rewrite !setMessage_submitting. split; reflexivity. }
  destruct (falsy (normalizeUrl rawUrl)).
  { left. simpl. rewrite !setMessage_submitting. split; reflexivity. }
  unfold new_URL. destruct (URL_parses (normalizeUrl rawUrl)); simpl.
  - right. split; [reflexivity|]. eexists. eexists. split; [reflexivity|].
    intros r. eexists. split; [reflexivity|].
    unfold fetchBookmarks. quiet_tac.
  - left. rewrite !setMessage_submitting. split; reflexivity.
Qed.

Lemma insert_inv_ui (s : State) (u : list Exn) (L : Loop) :
  submitting s = submitting (ui L) -> insert_inv L ->
  insert_inv (mkLoop s (pending L) (nextRequest L) u).
Proof.
  intros Hs (HA & HB & HC & HD). unfold insert_inv. simpl. rewrite Hs.
  split; [exact HA|]. split; [exact HB|]. split; [exact HC|exact HD].
Qed.

Lemma suspend_quiet_inv (p : Pending) (s : State) (L : Loop) :
  is_insert p = false -> Pending_quiet p ->
  submitting s = submitting (ui L) -> insert_inv L ->
  insert_inv (suspend p s L).
Proof.
  intros Hp Hq Hs (HA & HB & HC & HD). unfold insert_inv, suspend. simpl.
  rewrite Hs. split; [|split; [|split]].
  - intros n q Hn. destruct (decide (nextRequest L = n)) as [E|E].
    + rewrite <- E, lookup_insert_eq in Hn. injection Hn as <-.
      split; [lia|exact Hq].
    + rewrite lookup_insert_ne in Hn by exact E.
      destruct (HA n q Hn) as [H1 H2]. split; [lia|exact H2].
  - intros Hsub n q Hn. destruct (decide (nextRequest L = n)) as [E|E].
    + rewrite <- E, lookup_insert_eq in Hn. injection Hn as <-. exact Hp.
    + rewrite lookup_insert_ne in Hn by exact E. eapply HB; eassumption.
  - intros Hsub. destruct (HC Hsub) as (n & q & Hn & Hi).
    exists n, q. split; [|exact Hi].
    destruct (HA n q Hn) as [Hlt _].
    rewrite lookup_insert_ne by lia. exact Hn.
  - intros n m q1 q2 Hn Hm H1 H2.
    destruct (decide (nextRequest L = n)) as [E|E].
    { rewrite <- E, lookup_insert_eq in Hn. injection Hn as <-.
      rewrite Hp in H1. discriminate H1. }
    destruct (decide (nextRequest L = m)) as [E'|E'].
    { rewrite <- E', lookup_insert_eq in Hm. injection Hm as <-.
      rewrite Hp in H2. discriminate H2. }
    rewrite lookup_insert_ne in Hn by exact E.
    rewrite lookup_insert_ne in Hm by exact E'.
    eapply HD; eassumption.
Qed.

Lemma launch_quiet_inv (t : Task unit) (L : Loop) :
  Quiet t -> insert_inv L -> insert_inv (launch t L).
Proof.
  intros Ht HL. destruct (Quiet_run t (ui L) Ht) as [Hs Ho].
  unfold launch. destruct (run t (ui L)) as [s o]. simpl in Hs, Ho.
  destruct o as [a|e|k|row k|i k].
  - apply insert_inv_ui; assumption.
  - apply insert_inv_ui; assumption.
  - apply suspend_quiet_inv; [reflexivity|exact Ho|exact Hs|exact HL].
  - contradiction.
  - apply suspend_quiet_inv; [reflexivity|exact Ho|exact Hs|exact HL].
Qed.

Lemma delete_quiet_inv (n : nat) (p : Pending) (L : Loop) :
  pending L !! n = Some p -> is_insert p = false -> insert_inv L ->
  insert_inv (mkLoop (ui L) (delete n (pending L)) (nextRequest L) (unhandled L)).
Proof.
  intros Hn Hp (HA & HB & HC & HD). unfold insert_inv. simpl.
  split; [|split; [|split]].
  - intros m q Hm. apply lookup_delete_Some in Hm. apply HA, Hm.
  - intros Hsub m q Hm. apply lookup_delete_Some in Hm.
    eapply HB; [exact Hsub|apply Hm].
  - intros Hsub. destruct (HC Hsub) as (m & q & Hm & Hi).
    exists m, q. split; [|exact Hi].
    apply lookup_delete_Some. split; [|exact Hm].
    intros ->. rewrite Hn in Hm. injection Hm as <-.
    rewrite Hp in Hi. discriminate Hi.
  - intros m1 m2 q1 q2 H1 H2. apply lookup_delete_Some in H1, H2.
    eapply HD; [apply H1|apply H2].
Qed.

Lemma delete_insert_inv (n : nat) (p : Pending) (L : Loop) :
  pending L !! n = Some p -> is_insert p = true -> insert_inv L ->
  insert_inv (mkLoop (setSubmitting false (ui L)) (delete n (pending L))
                (nextRequest L) (unhandled L)).
Proof.
  intros Hn Hp (HA & HB & HC & HD). unfold insert_inv. simpl.
  split; [|split; [|split]].
  - intros m q Hm. apply lookup_delete_Some in Hm. apply HA, Hm.
  - intros _ m q Hm. apply lookup_delete_Some in Hm. destruct Hm as [Hne Hm].
    destruct (is_insert q) eqn:Hq; [|reflexivity].
    exfalso. apply Hne. exact (HD n m p q Hn Hm Hp Hq).
  - intros H. discriminate H.
  - intros m1 m2 q1 q2 H1 H2. apply lookup_delete_Some in H1, H2.
    eapply HD; [apply H1|apply H2].
Qed.

Lemma ui_step_insert_inv (e : Event) (L L' : Loop) :
  insert_inv L -> ui_step userId URL_parses e L = Some L' -> insert_inv L'.
Proof.
  intros HL Hstep. unfold ui_step in Hstep.
  destruct (permitted e (ui L)) eqn:Hperm; [|discriminate Hstep].
  destruct e as [|cell|v|v| |i| |hidden| |n r|dt]; simpl in Hstep.
  - injection Hstep as <-. apply launch_quiet_inv; [apply initialLoad_quiet|].
    apply (insert_inv_ui _ (unhandled L) L); [reflexivity|exact HL].
  - injection Hstep as <-.
    apply (insert_inv_ui _ (unhandled L) L); [reflexivity|exact HL].
  - injection Hstep as <-.
    apply (insert_inv_ui _ (unhandled L) L); [reflexivity|exact HL].
  - injection Hstep as <-.
    apply (insert_inv_ui _ (unhandled L) L); [reflexivity|exact HL].
  - injection Hstep as <-. simpl in Hperm. unfold submitDisabled in Hperm.
    apply Bool.negb_true_iff in Hperm.
    unfold launch.
    destruct (addBookmark_opens (title (ui L)) (url (ui L)) (ui L))
      as [[Hs Ho]|(Hs & row & k & Ho & Hq)];
      destruct (run (addBookmark userId URL_parses (title (ui L)) (url (ui L)))
                  (ui L)) as [s o]; simpl in Hs, Ho; subst o.
    + apply insert_inv_ui; assumption.
    + destruct HL as (HA & HB & HC & HD). unfold insert_inv, suspend. simpl.
      split; [|split; [|split]].
      * intros n q Hn. destruct (decide (nextRequest L = n)) as [E|E].
        -- rewrite <- E, lookup_insert_eq in Hn. injection Hn as <-.
           split; [lia|exact Hq].
        -- rewrite lookup_insert_ne in Hn by exact E.
           destruct (HA n q Hn) as [H1 H2]. split; [lia|exact H2].
      * intros H. rewrite Hs in H. discriminate H.
      * intros _. exists (nextRequest L), (PInsert row k).
        rewrite lookup_insert_eq. split; reflexivity.
      * intros n m q1 q2 Hn Hm H1 H2.
        destruct (decide (nextRequest L = n)) as [E|E];
          destruct (decide (nextRequest L = m)) as [E'|E'].
        -- congruence.
        -- rewrite lookup_insert_ne in Hm by exact E'.
           rewrite (HB Hperm m q2 Hm) in H2. discriminate H2.
        -- rewrite lookup_insert_ne in Hn by exact E.
           rewrite (HB Hperm n q1 Hn) in H1. discriminate H1.
        -- rewrite lookup_insert_ne in Hn by exact E.
           rewrite (HB Hperm n q1 Hn) in H1. discriminate H1.
  - injection Hstep as <-. apply launch_quiet_inv; [apply deleteBookmark_quiet|exact HL].
  - injection Hstep as <-. apply launch_quiet_inv; [apply fetchBookmarks_quiet|exact HL].
  - destruct hidden; injection Hstep as <-; [exact HL|].
    apply launch_quiet_inv; [apply fetchBookmarks_quiet|exact HL].
  - injection Hstep as <-. apply launch_quiet_inv; [apply fetchBookmarks_quiet|exact HL].
  - destruct (pending L !! n) as [p|] eqn:Hp; [|discriminate Hstep].
    pose proof HL as (HA & _).
    destruct (HA n p Hp) as [_ Hq].
    destruct p as [k|row k|i k], r as [res|res|res]; try discriminate Hstep;
      injection Hstep as <-.
    + apply launch_quiet_inv; [apply Hq|].
      apply (delete_quiet_inv n _ L Hp); [reflexivity|exact HL].
    + destruct (Hq res) as (rest & Hk & Hrest).
      pose proof (delete_insert_inv n _ L Hp eq_refl HL) as H0.
      pose proof (launch_quiet_inv rest _ Hrest H0) as H1.
      unfold launch in *. rewrite Hk. exact H1.
    + apply launch_quiet_inv; [apply Hq|].
      apply (delete_quiet_inv n _ L Hp); [reflexivity|exact HL].
  - destruct (dt <? 0)%Z; [discriminate Hstep|]. injection Hstep as <-.
    apply (insert_inv_ui _ (unhandled L) L); [apply elapse_submitting|exact HL].
Qed.

Lemma ui_steps_insert_inv (es : list Event) (L L' : Loop) :
  insert_inv L -> ui_steps userId URL_parses es L = Some L' -> insert_inv L'.
Proof.
  revert L. induction es as [|e es IH]; intros L HL Hsteps; simpl in Hsteps.
  - injection Hsteps as <-. exact HL.
  - destruct (ui_step userId URL_parses e L) as [L1|] eqn:Hstep;
      [|discriminate Hsteps].
    eapply IH; [|exact Hsteps]. eapply ui_step_insert_inv; eassumption.
Qed.

Lemma initialLoop_insert_inv (t0 : Z) : insert_inv (initialLoop t0).
Proof.
  unfold insert_inv. simpl. split; [|split; [|split]].
  - intros n p H. rewrite lookup_empty in H. discriminate H.
  - intros _ n p H. rewrite lookup_empty in H. discriminate H.
  - intros H. discriminate H.
  - intros n m p q H. rewrite lookup_empty in H. discriminate H.
Qed.

(** X3. Through the events the page lets the user produce, with the
    submit button disabled while [submitting], at most one insert is in
    flight at any time, and [submitting] is true exactly while one is; a
    further submit is refused until the reply has arrived. *)
Theorem one_insert_in_flight (t0 : Z) (es : list Event) (L : Loop) :
  ui_steps userId URL_parses es (initialLoop t0) = Some L ->
  (forall n m p q,
     pending L !! n = Some p -> pending L !! m = Some q ->
     is_insert p = true -> is_insert q = true -> n = m) /\
  (submitting (ui L) = true <->
   exists n p, pending L !! n = Some p /\ is_insert p = true) /\
  ((exists n p, pending L !! n = Some p /\ is_insert p = true) ->
   ui_step userId URL_parses Submit L = None).
Proof.
  intros Hsteps.
  destruct (ui_steps_insert_inv es _ L (initialLoop_insert_inv t0) Hsteps)
    as (HA & HB & HC & HD).
  assert (Hsub : (exists n p, pending L !! n = Some p /\ is_insert p = true) ->
                 submitting (ui L) = true).
  { intros (n & p & Hn & Hp). destruct (submitting (ui L)) eqn:Hs; [reflexivity|].
    rewrite (HB eq_refl n p Hn) in Hp. discriminate Hp. }
  split; [exact HD|]. split; [split; [exact HC|exact Hsub]|].
  intros Hin. unfold ui_step. simpl. unfold submitDisabled.
  rewrite (Hsub Hin). reflexivity.
Qed.

(** ** The delete marker *)

Lemma Calm_run {A : Type} (t : Task A) (s : State) :
  Calm t ->
  deletingId (fst (run t s)) = deletingId s /\
  match snd (run t s) with
  | OnDelete _ _ => False
  | OnSelect k => forall r, Calm (k r)
  | OnInsert _ k => forall r, Calm (k r)
  | _ => True
  end.
Proof.
  intros Ht. revert s. induction Ht as [a|e|f k Hf Hk IH|k Hk IH|row k Hk IH];
    intros s; simpl; try (split; [reflexivity|]; auto).
  destruct (IH (f s)) as [H1 H2]. split; [rewrite H1; apply Hf|exact H2].
Qed.

Lemma elapse_deletingId (dt : Z) (s : State) :
  deletingId (elapse dt s) = deletingId s.
Proof.
  unfold elapse.
  generalize (List.filter (fun p : nat * Z => (snd p <=? now (advance dt s))%Z)
                (timers (advance dt s))).
  intros l. change (deletingId s) with (deletingId (advance dt s)).
  generalize (advance dt s). clear s.
  induction l as [|p l IH]; intros s; simpl; [reflexivity|].
  rewrite IH. unfold fire. destruct (existsb _ _); [|reflexivity].
  rewrite setMessage_deletingId. reflexivity.
Qed.

Ltac calm_upd :=
  let s := fresh "s" in
  intros s;
  first [ apply setMessage_deletingId
        | reflexivity
        | destruct (readMounted _ s); reflexivity ].

Ltac calm_tac :=
  repeat first
    [ apply Calm_Ret
    | apply Calm_Throw
    | apply Calm_Upd; [calm_upd|]
    | apply Calm_AwaitSelect; intros ?
    | apply Calm_AwaitInsert; intros ?
    | progress simpl
    | match goal with
      | |- context [match ?x with _ => _ end] => destruct x
      end ].

Lemma fetchBookmarks_calm : Calm fetchBookmarks.
Proof. unfold fetchBookmarks. calm_tac. Qed.

Lemma initialLoad_calm (cell : nat) : Calm (initialLoad cell).
Proof. unfold initialLoad, fetchBookmarks. calm_tac. Qed.

Lemma addBookmark_calm (rawTitle rawUrl : jsstring) :
  Calm (addBookmark userId URL_parses rawTitle rawUrl).
Proof. unfold addBookmark, new_URL, fetchBookmarks. calm_tac. Qed.

(** A click on Delete marks the row and parks on the delete. *)
Lemma deleteBookmark_marks (i : jsstring) (s : State) :
  exists k,
    run (deleteBookmark i) s
    = (setDeletingId (Some i) (setMessage None s), OnDelete i k) /\
    Pending_calm (PDelete i k).
Proof.
  eexists. split; [reflexivity|].
  intros r. eexists. split; [reflexivity|]. calm_tac.
Qed.

Lemma deleting_inv_ui (s : State) (u : list Exn) (L : Loop) :
  deletingId s = deletingId (ui L) -> deleting_inv L ->
  deleting_inv (mkLoop s (pending L) (nextRequest L) u).
Proof.
  intros Hs (HA & HB). unfold deleting_inv. simpl. rewrite Hs.
  split; [exact HA|exact HB].
Qed.

Lemma suspend_deleting_inv (p : Pending) (s : State) (L : Loop) :
  Pending_calm p ->
  (forall i, deletingId s = Some i ->
     deletingId (ui L) = Some i \/ exists k, p = PDelete i k) ->
  deleting_inv L -> deleting_inv (suspend p s L).
Proof.
  intros Hq Hs (HA & HB). unfold deleting_inv, suspend. simpl. split.
  - intros n q Hn. destruct (decide (nextRequest L = n)) as [E|E].
    + rewrite <- E, lookup_insert_eq in Hn. injection Hn as <-.
      split; [lia|exact Hq].
    + rewrite lookup_insert_ne in Hn by exact E.
      destruct (HA n q Hn) as [H1 H2]. split; [lia|exact H2].
  - intros i Hi. destruct (Hs i Hi) as [Hold|[k ->]].
    + destruct (HB i Hold) as (n & k & Hn). exists n, k.
      destruct (HA n _ Hn) as [Hlt _].
      rewrite lookup_insert_ne by lia. exact Hn.
    + exists (nextRequest L), k. apply lookup_insert_eq.
Qed.

Lemma launch_calm_inv (t : Task unit) (L : Loop) :
  Calm t -> deleting_inv L -> deleting_inv (launch t L).
Proof.
  intros Ht HL. destruct (Calm_run t (ui L) Ht) as [Hs Ho].
  unfold launch. destruct (run t (ui L)) as [s o]. simpl in Hs, Ho.
  destruct o as [a|e|k|row k|i k].
  - apply deleting_inv_ui; assumption.
  - apply deleting_inv_ui; assumption.
  - apply suspend_deleting_inv; [exact Ho| |exact HL].
    intros i Hi. left. rewrite <- Hs. exact Hi.
  - apply suspend_deleting_inv; [exact Ho| |exact HL].
    intros i Hi. left. rewrite <- Hs. exact Hi.
  - contradiction.
Qed.

Lemma step_deleting_inv (e : Event) (L L' : Loop) :
  deleting_inv L -> step userId URL_parses e L = Some L' -> deleting_inv L'.
Proof.
  intros HL Hstep.
  destruct e as [|cell|v|v| |i| |hidden| |n r|dt]; simpl in Hstep.
  - injection Hstep as <-. apply launch_calm_inv; [apply initialLoad_calm|].
    apply (deleting_inv_ui _ (unhandled L) L); [reflexivity|exact HL].
  - injection Hstep as <-.
    apply (deleting_inv_ui _ (unhandled L) L); [reflexivity|exact HL].
  - injection Hstep as <-.
    apply (deleting_inv_ui _ (unhandled L) L); [reflexivity|exact HL].
  - injection Hstep as <-.
    apply (deleting_inv_ui _ (unhandled L) L); [reflexivity|exact HL].
  - injection Hstep as <-. apply launch_calm_inv; [apply addBookmark_calm|exact HL].
  - injection Hstep as <-. unfold launch.
    destruct (deleteBookmark_marks i (ui L)) as (k & Hrun & Hq). rewrite Hrun.
    apply suspend_deleting_inv; [exact Hq| |exact HL].
    intros j Hj. right. exists k. simpl in Hj. injection Hj as <-. reflexivity.
  - injection Hstep as <-. apply launch_calm_inv; [apply fetchBookmarks_calm|exact HL].
  - destruct hidden; injection Hstep as <-; [exact HL|].
    apply launch_calm_inv; [apply fetchBookmarks_calm|exact HL].
  - injection Hstep as <-. apply launch_calm_inv; [apply fetchBookmarks_calm|exact HL].
  - destruct (pending L !! n) as [p|] eqn:Hp; [|discriminate Hstep].
    pose proof HL as (HA & HB).
    destruct (HA n p Hp) as [_ Hq].
    assert (Hkeep : forall s : State,
              (forall i, deletingId s = Some i ->
                 deletingId (ui L) = Some i /\ forall k, p <> PDelete i k) ->
              deleting_inv (mkLoop s (delete n (pending L)) (nextRequest L)
                              (unhandled L))).
    { intros s Hs. split.
      - intros m q Hm. simpl in Hm. apply lookup_delete_Some in Hm.
        apply HA, Hm.
      - intros i Hi. simpl in Hi. destruct (Hs i Hi) as [Hold Hnot]. simpl.
        destruct (HB i Hold) as (m & k & Hm). exists m, k.
        apply lookup_delete_Some. split; [|exact Hm].
        intros ->. rewrite Hp in Hm. injection Hm as ->. apply (Hnot k).
        reflexivity. }
    destruct p as [k|row k|i k], r as [res|res|res]; try discriminate Hstep;
      injection Hstep as <-.
    + apply launch_calm_inv; [apply Hq|]. apply Hkeep.
      intros i Hi. split; [exact Hi|discriminate].
    + apply launch_calm_inv; [apply Hq|]. apply Hkeep.
      intros i Hi. split; [exact Hi|discriminate].
    + destruct (Hq res) as (rest & Hk & Hrest).
      assert (H0 : deleting_inv
                (mkLoop (setDeletingId None (ui L)) (delete n (pending L))
                   (nextRequest L) (unhandled L))).
      { apply Hkeep. intros j Hj. discriminate Hj. }
      pose proof (launch_calm_inv rest _ Hrest H0) as H1.
      unfold launch in *. rewrite Hk. exact H1.
  - destruct (dt <? 0)%Z; [discriminate Hstep|]. injection Hstep as <-.
    apply (deleting_inv_ui _ (unhandled L) L); [apply elapse_deletingId|exact HL].
Qed.

Lemma steps_deleting_inv (es : list Event) (L L' : Loop) :
  deleting_inv L -> steps userId URL_parses es L = Some L' -> deleting_inv L'.
Proof.
  revert L. induction es as [|e es IH]; intros L HL Hsteps; simpl in Hsteps.
  - injection Hsteps as <-. exact HL.
  - destruct (step userId URL_parses e L) as [L1|] eqn:Hstep;
      [|discriminate Hsteps].
    eapply IH; [|exact Hsteps]. eapply step_deleting_inv; eassumption.
Qed.

(** X12. In every state the event loop can reach, the row [deletingId]
    names, whose Delete button is disabled and reads "Deleting...", has a
    delete in flight: the marker is never left behind without a request
    to clear it, and every reply to a delete clears it. *)
Theorem deleting_marker_has_delete_in_flight (t0 : Z) (es : list Event) (L : Loop) :
  steps userId URL_parses es (initialLoop t0) = Some L ->
  (forall i, deletingId (ui L) = Some i ->
     exists n k, pending L !! n = Some (PDelete i k)) /\
  (forall n i k r L',
     pending L !! n = Some (PDelete i k) ->
     step userId URL_parses (Resolve n (RDelete r)) L = Some L' ->
     deletingId (ui L') = None).
Proof.
  intros Hsteps.
  assert (H0 : deleting_inv (initialLoop t0)).
  { split.
    - intros n p H. simpl in H. rewrite lookup_empty in H. discriminate H.
    - intros i H. discriminate H. }
  destruct (steps_deleting_inv es _ L H0 Hsteps) as (HA & HB).
  split; [exact HB|].
  intros n i k r L' Hn Hstep. simpl in Hstep. rewrite Hn in Hstep.
  injection Hstep as <-.
  destruct (HA n _ Hn) as [_ Hq]. destruct (Hq r) as (rest & Hk & Hrest).
  unfold launch. simpl ui. rewrite Hk. simpl run.
  destruct (Calm_run rest (setDeletingId None (ui L)) Hrest) as [Hs _].
  destruct (run rest (setDeletingId None (ui L))) as [s o]. simpl in Hs.
  destruct o; simpl; exact Hs.
Qed.

End Extras.

(** ** [getHostname] *)

Lemma starts_with_app (p s : jsstring) :
  starts_with p s = true -> s = p ++ drop (length p) s.
Proof.
  revert s. induction p as [|a p IH]; intros s H; [reflexivity|].
  destruct s as [|c s]; [discriminate H|]. simpl in H.
  apply andb_prop in H. destruct H as [Hc Hs].
  apply N.eqb_eq in Hc. subst c. simpl. f_equal. apply IH. exact Hs.
Qed.

(** X9. [getHostname] lets no exception out: for a URL the parser
    refuses it returns the empty string. Otherwise it returns the host
    name, less one leading [www.] when the host name starts with it (in
    lower case), so that host name is either the result or [www.] followed
    by the result. A row has no favicon exactly when its label is the
    fallback "link" for want of a host, and otherwise the favicon address
    carries the label as its domain. *)
Theorem getHostname_spec (URL_hostname : jsstring -> Exn + jsstring) :
  (forall u e, URL_hostname u = inl e -> getHostname URL_hostname u = []) /\
  (forall u h, URL_hostname u = inr h ->
     (starts_with (lit "www.") h = true /\
      h = lit "www." ++ getHostname URL_hostname u) \/
     (starts_with (lit "www.") h = false /\ getHostname URL_hostname u = h)) /\
  (forall b,
     (getHostname URL_hostname (Bookmark.url b) = [] /\
      favicon URL_hostname b = None /\ hostLabel URL_hostname b = lit "link") \/
     (getHostname URL_hostname (Bookmark.url b) <> [] /\
      hostLabel URL_hostname b = getHostname URL_hostname (Bookmark.url b) /\
      favicon URL_hostname b =
        Some (lit "https://www.google.com/s2/favicons?domain="
              ++ hostLabel URL_hostname b ++ lit "&sz=64"))).
Proof.
  split; [|split].
  - intros u e H. unfold getHostname. rewrite H. reflexivity.
  - intros u h H. unfold getHostname, strip_www. rewrite H.
    destruct (starts_with (lit "www.") h) eqn:Hw.
    + left. split; [reflexivity|]. apply (starts_with_app (lit "www.") h Hw).
    + right. split; reflexivity.
  - intros b. unfold favicon, hostLabel.
    destruct (getHostname URL_hostname (Bookmark.url b)) as [|c v].
    + left. repeat split.
    + right. split; [discriminate|]. split; reflexivity.
Qed.

(** ** The focus effect *)

Lemma existsb_fresh (ty : EventName) (n : nat) (l : list (EventName * nat)) :
  Forall (fun p => snd p < n) l -> existsb (same_listener ty n) l = false.
Proof.
  induction 1 as [|p l Hp Hl IH]; [reflexivity|]. simpl. rewrite IH.
  unfold same_listener.
  replace (snd p =? n) with false by (symmetry; apply Nat.eqb_neq; lia).
  rewrite Bool.andb_false_r. reflexivity.
Qed.

Lemma filter_fresh (ty : EventName) (n : nat) (l : list (EventName * nat)) :
  Forall (fun p => snd p < n) l ->
  List.filter (fun p => negb (same_listener ty n p)) l = l.
Proof.
  induction 1 as [|p l Hp Hl IH]; [reflexivity|]. simpl. rewrite IH.
  unfold same_listener.
  replace (snd p =? n) with false by (symmetry; apply Nat.eqb_neq; lia).
  rewrite Bool.andb_false_r. reflexivity.
Qed.

(** What a run of the effect registers, and what is left of it after its
    clean-up. *)
Lemma focusEffect_listeners (w : Window) :
  fresh_closures w ->
  focusEffect w =
  (nextClosure w,
   mkWindow (listeners w ++ [(visibilitychange, S (nextClosure w))]
             ++ [(focus, nextClosure w)])
     (S (S (nextClosure w)))).
Proof.
  intros Hw. unfold focusEffect, newClosure, addEventListener. simpl.
  rewrite (existsb_fresh visibilitychange (S (nextClosure w)) (listeners w))
    by (eapply Forall_impl; [exact Hw|]; simpl; intros p Hp; lia).
  simpl. rewrite existsb_app.
  rewrite (existsb_fresh focus (nextClosure w) (listeners w)) by exact Hw.
  simpl. replace (S (nextClosure w) =? nextClosure w) with false
    by (symmetry; apply Nat.eqb_neq; lia).
  simpl. rewrite <- app_assoc. reflexivity.
Qed.

Lemma focusCycle_listeners (w : Window) :
  fresh_closures w ->
  focusCycle w =
  mkWindow (listeners w ++ [(visibilitychange, S (nextClosure w))])
    (S (S (nextClosure w))).
Proof.
  intros Hw. unfold focusCycle. rewrite (focusEffect_listeners w Hw).
  unfold focusCleanup, removeEventListener. simpl.
  rewrite List.filter_app. rewrite filter_fresh by exact Hw. simpl.
  unfold same_listener. simpl. rewrite Nat.eqb_refl. reflexivity.
Qed.

Lemma focusCycles (k : nat) (w : Window) :
  fresh_closures w ->
  fresh_closures (Nat.iter k focusCycle w) /\
  listening focus (Nat.iter k focusCycle w) = listening focus w /\
  listening visibilitychange (Nat.iter k focusCycle w)
  = listening visibilitychange w + k.
Proof.
  intros Hw. induction k as [|k (Hf & H1 & H2)]; simpl.
  - split; [exact Hw|]. split; [reflexivity|lia].
  - rewrite (focusCycle_listeners _ Hf).
    set (w' := Nat.iter k focusCycle w) in *.
    split; [|split].
    + unfold fresh_closures. simpl. apply Forall_app. split.
      * eapply Forall_impl; [exact Hf|]. simpl. intros p Hp. lia.
      * constructor; [simpl; lia|constructor].
    + unfold listening in *. simpl.
      rewrite List.filter_app, length_app. simpl. lia.
    + unfold listening in *. simpl.
      rewrite List.filter_app, length_app. simpl. lia.
Qed.

(** X10. A run of the focus effect registers one [focus] and one
    [visibilitychange] listener; its clean-up removes the [focus] one
    only. So after any number of runs, each followed by its clean-up, the
    [focus] listeners are as many as before, and there is one more
    [visibilitychange] listener for each run: when the page becomes
    visible again, [fetchBookmarks] is called once for each run there
    has been. *)
Theorem focus_cleanup_leaves_visibility_listener (w : Window) (k : nat) :
  fresh_closures w ->
  listening focus (snd (focusEffect w)) = S (listening focus w) /\
  listening visibilitychange (snd (focusEffect w))
  = S (listening visibilitychange w) /\
  listening focus (Nat.iter k focusCycle w) = listening focus w /\
  listening visibilitychange (Nat.iter k focusCycle w)
  = listening visibilitychange w + k /\
  fetches_on focus false (Nat.iter k focusCycle w) = fetches_on focus false w /\
  fetches_on visibilitychange false (Nat.iter k focusCycle w)
  = fetches_on visibilitychange false w + k /\
  fetches_on visibilitychange true (Nat.iter k focusCycle w) = 0.
Proof.
  intros Hw. rewrite (focusEffect_listeners w Hw). simpl.
  destruct (focusCycles k w Hw) as (_ & H1 & H2).
  split; [|split].
  - unfold listening. simpl. rewrite !List.filter_app, !length_app. simpl. lia.
  - unfold listening. simpl. rewrite !List.filter_app, !length_app. simpl. lia.
  - split; [exact H1|]. split; [exact H2|]. split; [exact H1|].
    split; [exact H2|reflexivity].
Qed.

(** ** The realtime effect *)

Section RealtimeProperties.

Variable userId : jsstring.

Lemma realtime_run_app (es1 es2 : list RealtimeEvent) (r : RealtimeRun) :
  realtime_run userId (es1 ++ es2) r
  = realtime_run userId es2 (realtime_run userId es1 r).
Proof. unfold realtime_run. apply foldl_app. Qed.

(** While the auth listener is subscribed, auth events add their
    [setAuth] calls and nothing else; once it is not, they do nothing. *)
Lemma realtime_run_auth_on (ss : list (option jsstring)) (r : RealtimeRun) :
  authListener r = true ->
  realtime_run userId (List.map AuthChanged ss) r
  = mkRealtimeRun (channel r) (awaitingSession r) true
      (calls r ++ auth_calls ss) (nextChannel r).
Proof.
  revert r. induction ss as [|a ss IH]; intros r Hr.
  - destruct r; simpl in *. subst. unfold auth_calls. simpl.
    rewrite app_nil_r. reflexivity.
  - change (realtime_run userId (List.map AuthChanged (a :: ss)) r)
      with (realtime_run userId (List.map AuthChanged ss)
              (realtime_step userId (AuthChanged a) r)).
    simpl realtime_step. rewrite Hr. rewrite IH by exact Hr. simpl.
    unfold auth_calls. simpl. rewrite app_assoc. reflexivity.
Qed.

Lemma realtime_run_auth_off (ss : list (option jsstring)) (r : RealtimeRun) :
  authListener r = false ->
  realtime_run userId (List.map AuthChanged ss) r = r.
Proof.
  induction ss as [|a ss IH]; intros Hr; [reflexivity|].
  change (realtime_run userId (List.map AuthChanged (a :: ss)) r)
    with (realtime_run userId (List.map AuthChanged ss)
            (realtime_step userId (AuthChanged a) r)).
  simpl realtime_step. rewrite Hr. apply IH. exact Hr.
Qed.

Lemma realtime_run_cons (e : RealtimeEvent) (es : list RealtimeEvent)
    (r : RealtimeRun) :
  realtime_run userId (e :: es) r
  = realtime_run userId es (realtime_step userId e r).
Proof. reflexivity. Qed.

Lemma join_setAuth_if (session : option jsstring) (acc : list nat) :
  foldl join_call acc (setAuth_if session) = acc.
Proof.
  destruct session as [t|]; [|reflexivity]. simpl.
  destruct (falsy t); reflexivity.
Qed.

Lemma join_auth_calls (ss : list (option jsstring)) (acc : list nat) :
  foldl join_call acc (auth_calls ss) = acc.
Proof.
  unfold auth_calls. induction ss as [|a ss IH]; [reflexivity|].
  simpl. rewrite foldl_app, join_setAuth_if. exact IH.
Qed.

Lemma setAuth_if_nonempty (session : option jsstring) (t : jsstring) :
  SetAuth t ∈ setAuth_if session -> t <> [].
Proof.
  destruct session as [t'|]; simpl; [|intros H; apply elem_of_nil in H; contradiction].
  destruct t' as [|c v]; simpl; intros H.
  - apply elem_of_nil in H. contradiction.
  - apply list_elem_of_singleton in H. injection H as ->. discriminate.
Qed.

Lemma auth_calls_nonempty (ss : list (option jsstring)) (t : jsstring) :
  SetAuth t ∈ auth_calls ss -> t <> [].
Proof.
  unfold auth_calls. induction ss as [|a ss IH]; simpl; intros H.
  - apply elem_of_nil in H. contradiction.
  - apply elem_of_app in H. destruct H as [H|H].
    + eapply setAuth_if_nonempty. exact H.
    + apply IH. exact H.
Qed.

(** X11. The calls one run of the realtime effect makes, in the two
    orders its clean-up and the answer of [getSession] can come in, with
    any auth events around them. When the session arrives first, the
    channel is subscribed, after [setAuth] if the session has a token, and
    the clean-up unsubscribes the auth listener and removes that channel:
    no channel stays joined. When the clean-up comes first, it finds no
    channel to remove; the channel is subscribed afterwards all the same
    and stays joined, and auth events no longer reach [setAuth]. No
    [setAuth] is ever made with an empty token. *)
Theorem realtime_cleanup_before_session_keeps_channel
    (next : nat) (ss1 ss2 ss3 : list (option jsstring))
    (session : option jsstring) :
  let sub :=
    Subscribe (lit "bookmarks:" ++ userId) (lit "user_id=eq." ++ userId) next in
  let normal :=
    realtime_run userId
      (List.map AuthChanged ss1 ++ [SessionResolved session]
       ++ List.map AuthChanged ss2 ++ [CleanedUp] ++ List.map AuthChanged ss3)
      (realtimeEffect next) in
  let raced :=
    realtime_run userId
      (List.map AuthChanged ss1 ++ [CleanedUp]
       ++ List.map AuthChanged ss2 ++ [SessionResolved session]
       ++ List.map AuthChanged ss3)
      (realtimeEffect next) in
  calls normal =
    [GetSession; OnAuthStateChange] ++ auth_calls ss1 ++ setAuth_if session
    ++ [sub] ++ auth_calls ss2 ++ [UnsubscribeAuth; RemoveChannel next] /\
  joined (calls normal) = [] /\
  calls raced =
    [GetSession; OnAuthStateChange] ++ auth_calls ss1 ++ [UnsubscribeAuth]
    ++ setAuth_if session ++ [sub] /\
  joined (calls raced) = [next] /\
  (forall t, SetAuth t ∈ calls normal ++ calls raced -> t <> []).
Proof.
  intros sub normal raced.
  assert (Hn : calls normal =
    [GetSession; OnAuthStateChange] ++ auth_calls ss1 ++ setAuth_if session
    ++ [sub] ++ auth_calls ss2 ++ [UnsubscribeAuth; RemoveChannel next]).
  { unfold normal. rewrite realtime_run_app.
    rewrite realtime_run_auth_on by reflexivity.
    cbn [app]. rewrite realtime_run_cons. cbn.
    rewrite realtime_run_app.
    rewrite realtime_run_auth_on by reflexivity.
    rewrite realtime_run_cons. cbn.
    rewrite realtime_run_auth_off by reflexivity. cbn.
    rewrite <- !app_assoc. reflexivity. }
  assert (Hr : calls raced =
    [GetSession; OnAuthStateChange] ++ auth_calls ss1 ++ [UnsubscribeAuth]
    ++ setAuth_if session ++ [sub]).
  { unfold raced. rewrite realtime_run_app.
    rewrite realtime_run_auth_on by reflexivity.
    cbn [app]. rewrite realtime_run_cons. cbn.
    rewrite realtime_run_app.
    rewrite realtime_run_auth_off by reflexivity.
    rewrite realtime_run_cons. cbn.
    rewrite realtime_run_auth_off by reflexivity. cbn.
    rewrite <- !app_assoc. reflexivity. }
  split; [exact Hn|]. split.
  { rewrite Hn. unfold joined. rewrite !foldl_app.
    change (foldl join_call [] [GetSession; OnAuthStateChange]) with (@nil nat).
    rewrite join_auth_calls, join_setAuth_if.
    change (foldl join_call [] [sub]) with [next].
    rewrite join_auth_calls. simpl. rewrite Nat.eqb_refl. reflexivity. }
  split; [exact Hr|]. split.
  { rewrite Hr. unfold joined. rewrite !foldl_app.
    change (foldl join_call [] [GetSession; OnAuthStateChange]) with (@nil nat).
    rewrite join_auth_calls.
    change (foldl join_call [] [UnsubscribeAuth]) with (@nil nat).
    rewrite join_setAuth_if. reflexivity. }
  intros t Ht. rewrite Hn, Hr in Ht.
  repeat (apply elem_of_app in Ht; destruct Ht as [Ht|Ht]);
    try (eapply auth_calls_nonempty; exact Ht);
    try (eapply setAuth_if_nonempty; exact Ht);
    repeat (apply elem_of_cons in Ht; destruct Ht as [Ht|Ht];
            [discriminate Ht|]);
    apply elem_of_nil in Ht; contradiction.
Qed.

End RealtimeProperties.

(** ** Scenarios for the further properties *)

Lemma addBookmark_insert_payload_witness :
  exists (s1 : State) (row : NewRow) (k : Result Bookmark.t -> Task unit),
    run (addBookmark (lit "u") rejects_spaces (lit " Docs ") (lit "example.org/x"))
      twoBookmarks = (s1, OnInsert row k) /\
    row_user_id row = lit "u" /\
    row_title row = lit "Docs" /\
    row_url row = lit "https://example.org/x" /\
    has_http_scheme (row_url row) = true /\
    rejects_spaces (row_url row) = true.
Proof.
  destruct (run (addBookmark (lit "u") rejects_spaces (lit " Docs ")
                   (lit "example.org/x")) twoBookmarks) as [s1 o] eqn:E.
  destruct o as [a|e|k|row k|i k]; try (vm_compute in E; discriminate E).
  exists s1, row, k. split; [reflexivity|].
  destruct (addBookmark_insert_payload (lit "u") rejects_spaces (lit " Docs ")
              (lit "example.org/x") twoBookmarks s1 row k E)
    as (H1 & H2 & _ & _ & H5 & H6 & H7).
  split; [exact H1|]. split; [exact H2|]. split; [exact H5|].
  split; [exact H6|exact H7].
Defined.

Lemma one_insert_in_flight_witness :
  exists L,
    ui_steps (lit "u") rejects_spaces submitDocsTrace (initialLoop 0) = Some L /\
    submitting (ui L) = true /\
    ui_step (lit "u") rejects_spaces Submit L = None.
Proof.
  destruct (ui_steps (lit "u") rejects_spaces submitDocsTrace (initialLoop 0))
    as [L|] eqn:E; [|vm_compute in E; discriminate E].
  exists L. split; [reflexivity|].
  destruct (one_insert_in_flight (lit "u") rejects_spaces 0 submitDocsTrace L E)
    as (_ & H2 & H3).
  assert (Hs : submitting (ui L) = true).
  { pose proof E as E'. vm_compute in E'. injection E' as <-. reflexivity. }
  split; [exact Hs|]. apply H3. apply H2. exact Hs.
Defined.

Lemma add_then_delete_restores_items_witness :
  trim (title (ui docsFormLoop)) <> [] /\
  trim (url (ui docsFormLoop)) <> [] /\
  rejects_spaces (normalizeUrl (url (ui docsFormLoop))) = true /\
  with_id (lit "9") (items (ui docsFormLoop)) = [] /\
  exists L1 L2,
    steps (lit "u") rejects_spaces
      [Submit; Resolve 0 (RInsert (mkResult (Some bookmarkDocs) None))]
      docsFormLoop = Some L1 /\
    items (ui L1) = [bookmarkDocs; bookmarkA; bookmarkB] /\
    steps (lit "u") rejects_spaces
      [ClickDelete (lit "9");
       Resolve (nextRequest L1) (RDelete (mkResult None None))] L1 = Some L2 /\
    items (ui L2) = [bookmarkA; bookmarkB].
Proof.
  assert (Ht : trim (title (ui docsFormLoop)) <> []) by (vm_compute; discriminate).
  assert (Hu : trim (url (ui docsFormLoop)) <> []) by (vm_compute; discriminate).
  split; [exact Ht|]. split; [exact Hu|]. split; [reflexivity|].
  split; [reflexivity|].
  exact (add_then_delete_restores_items (lit "u") rejects_spaces docsFormLoop
           bookmarkDocs Ht Hu eq_refl eq_refl).
Defined.

Lemma focus_cleanup_leaves_visibility_listener_witness :
  fresh_closures (mkWindow [] 0) /\
  listening focus (Nat.iter 3 focusCycle (mkWindow [] 0)) = 0 /\
  listening visibilitychange (Nat.iter 3 focusCycle (mkWindow [] 0)) = 3 /\
  fetches_on visibilitychange false (Nat.iter 3 focusCycle (mkWindow [] 0)) = 3.
Proof.
  assert (Hw : fresh_closures (mkWindow [] 0)) by constructor.
  split; [exact Hw|].
  destruct (focus_cleanup_leaves_visibility_listener (mkWindow [] 0) 3 Hw)
    as (_ & _ & H3 & H4 & _ & H6 & _).
  split; [exact H3|]. split; [exact H4|exact H6].
Defined.

Lemma deleting_marker_has_delete_in_flight_witness :
  exists L,
    steps (lit "u") rejects_spaces deleteFirstTrace (initialLoop 0) = Some L /\
    deletingId (ui L) = Some (lit "1") /\
    exists n k, pending L !! n = Some (PDelete (lit "1") k).
Proof.
  destruct (steps (lit "u") rejects_spaces deleteFirstTrace (initialLoop 0))
    as [L|] eqn:E; [|vm_compute in E; discriminate E].
  exists L. split; [reflexivity|].
  destruct (deleting_marker_has_delete_in_flight (lit "u") rejects_spaces 0
              deleteFirstTrace L E) as [H1 _].
  assert (Hd : deletingId (ui L) = Some (lit "1")).
  { pose proof E as E'. vm_compute in E'. injection E' as <-. reflexivity. }
  split; [exact Hd|]. apply H1. exact Hd.
Defined.

Lemma addBookmark_failure_keeps_form_witness :
  (trim (lit "  ") = [] /\
   exists s',
     run (addBookmark (lit "u") rejects_spaces (lit "  ") (lit "example.org/x"))
       (ui docsFormLoop) = (s', Finished tt) /\
     title s' = lit "Docs" /\ url s' = lit "example.org/x" /\
     submitting s' = false) /\
  (exists k : Result Bookmark.t -> Task unit,
     (exists s1,
        run (addBookmark (lit "u") rejects_spaces (lit "Docs") (lit "example.org/x"))
          (ui docsFormLoop)
        = (s1, OnInsert (mkNewRow (lit "u") (lit "Docs")
                           (lit "https://example.org/x")) k) /\
        submitting s1 = true /\ message s1 = None /\
        title s1 = lit "Docs" /\ url s1 = lit "example.org/x") /\
     (exists s',
        run (k (mkResult None (Some (PostgrestError.mk (lit "duplicate key")))))
          (ui docsFormLoop) = (s', Finished tt) /\
        submitting s' = false /\
        title s' = lit "Docs" /\ url s' = lit "example.org/x")).
Proof.
  destruct (addBookmark_failure_keeps_form (lit "u") rejects_spaces)
    as (Hbad & k & Hstart & Hk).
  split.
  - split; [reflexivity|].
    exact (Hbad (lit "  ") (lit "example.org/x") (ui docsFormLoop)
             (or_introl eq_refl)).
  - exists k. split.
    + assert (Ht : trim (lit "Docs") <> []) by (vm_compute; discriminate).
      assert (Hu : trim (lit "example.org/x") <> []) by (vm_compute; discriminate).
      exact (Hstart (lit "Docs") (lit "example.org/x") (ui docsFormLoop)
               Ht Hu eq_refl).
    + exact (Hk (ui docsFormLoop)
               (mkResult None (Some (PostgrestError.mk (lit "duplicate key"))))
               (PostgrestError.mk (lit "duplicate key")) eq_refl).
Defined.

Lemma fetchBookmarks_frame_witness :
  exists k : Result (list Bookmark.t) -> Task unit,
    run fetchBookmarks twoBookmarks = (twoBookmarks, OnSelect k) /\
    (exists s',
       run (k (mkResult None (Some (PostgrestError.mk (lit "offline")))))
         twoBookmarks = (s', Finished tt) /\
       message s' = Some (mkMessage err (lit "offline")) /\
       items s' = [bookmarkA; bookmarkB]) /\
    (exists s',
       run (k (mkResult (Some [bookmarkB]) None)) twoBookmarks = (s', Finished tt) /\
       items s' = [bookmarkB] /\ message s' = None /\ timers s' = []).
Proof.
  destruct fetchBookmarks_frame as (k & Hstart & Herr & Hok).
  exists k. split; [exact (Hstart twoBookmarks)|]. split.
  - destruct (Herr twoBookmarks
                (mkResult None (Some (PostgrestError.mk (lit "offline"))))
                (PostgrestError.mk (lit "offline")) eq_refl)
      as (s' & H1 & H2 & H3 & _).
    exists s'. split; [exact H1|]. split; [exact H2|exact H3].
  - destruct (Hok twoBookmarks (mkResult (Some [bookmarkB]) None) eq_refl)
      as (s' & H1 & H2 & H3 & H4 & _).
    exists s'. split; [exact H1|]. split; [exact H2|]. split; [exact H3|exact H4].
Defined.

Lemma initialLoad_stale_run_keeps_loading_witness :
  readMounted 0 (setLoading true (clearMounted 0 (snd (allocMounted twoBookmarks))))
  = false /\
  exists k : Result (list Bookmark.t) -> Task unit,
    run (initialLoad 0) (snd (allocMounted twoBookmarks))
    = (setLoading true (snd (allocMounted twoBookmarks)), OnSelect k) /\
    exists s',
      run (k (mkResult (Some [bookmarkB]) None))
        (setLoading true (clearMounted 0 (snd (allocMounted twoBookmarks))))
      = (s', Finished tt) /\
      loading s' = true /\ items s' = [bookmarkB].
Proof.
  split; [reflexivity|].
  destruct (initialLoad_stale_run_keeps_loading (lit "u") rejects_spaces)
    as [H _].
  destruct (H 0) as (k & Hstart & Hk).
  exists k. split; [exact (Hstart (snd (allocMounted twoBookmarks)))|].
  exact (Hk (setLoading true (clearMounted 0 (snd (allocMounted twoBookmarks))))
            (mkResult (Some [bookmarkB]) None) eq_refl).
Defined.

Lemma getHostname_spec_witness :
  (names_www_example_org (lit "not a url") = inl TypeError /\
   getHostname names_www_example_org (lit "not a url") = []) /\
  (names_www_example_org (lit "https://www.example.org/x")
   = inr (lit "www.example.org") /\
   getHostname names_www_example_org (lit "https://www.example.org/x")
   = lit "example.org").
Proof.
  destruct (getHostname_spec names_www_example_org) as (Hthrow & Hhost & _).
  split.
  - split; [reflexivity|].
    exact (Hthrow (lit "not a url") TypeError eq_refl).
  - split; [reflexivity|].
    destruct (Hhost (lit "https://www.example.org/x") (lit "www.example.org")
                eq_refl) as [[_ H]|[H _]].
    + apply (app_inv_head (lit "www.")). symmetry. exact H.
    + discriminate H.
Defined.

(** C6, counterexample. The form holds "Docs" and "example.org/x" and
    is submitted; the store acknowledges the insert without a record, so
    [addBookmark] falls back on a refresh, and the store rejects that
    refresh with "offline". The error is not what the notice shows:
    [addBookmark] ends with the notice "Bookmark added!", and [items] is
    what it was. *)
Lemma fallback_refresh_error_is_not_the_notice :
  exists L,
    steps (lit "u") rejects_spaces
      [Submit;
       Resolve 0 (RInsert (mkResult None None));
       Resolve 1 (RSelect
                    (mkResult None (Some (PostgrestError.mk (lit "offline")))))]
      docsFormLoop = Some L /\
    message (ui L) = Some (mkMessage ok (lit "Bookmark added!")) /\
    message (ui L) <> Some (mkMessage err (lit "offline")) /\
    items (ui L) = [bookmarkA; bookmarkB] /\
    pending L = ∅ /\ unhandled L = [].
Proof.
  eexists. split; [vm_compute; reflexivity|].
  split; [reflexivity|]. split; [vm_compute; discriminate|].
  split; [reflexivity|]. split; reflexivity.
Qed.

(** C7, counterexample. The initial-load effect runs and is cleaned up
    before its fetch completes. The fetch then completes, with rows or
    with an error, and [loading] is still true. *)
Lemma initialLoad_cleaned_up_leaves_loading :
  (exists L,
     steps (lit "u") rejects_spaces
       [EffectRun; EffectCleanup 0;
        Resolve 0 (RSelect (mkResult (Some [bookmarkA]) None))]
       (initialLoop 0) = Some L /\
     pending L = ∅ /\ items (ui L) = [bookmarkA] /\ loading (ui L) = true) /\
  (exists L,
     steps (lit "u") rejects_spaces
       [EffectRun; EffectCleanup 0;
        Resolve 0 (RSelect
                     (mkResult None (Some (PostgrestError.mk (lit "offline")))))]
       (initialLoop 0) = Some L /\
     pending L = ∅ /\
     message (ui L) = Some (mkMessage err (lit "offline")) /\
     loading (ui L) = true).
Proof.
  split; eexists; (split; [vm_compute; reflexivity|]);
    (split; [reflexivity|]); split; reflexivity.
Qed.
